(** * SJTU-Canvas-Helper: the formatting, base64 and file-type utilities

    A shallow embedding of the utility module of the front end
    ([formatDate], [base64ToArrayBuffer], [base64ToFile], [getFileType])
    together with the parts of the JavaScript host they call: string
    primitives, property lookup on an object literal, the [Date] calendar
    arithmetic of ECMAScript, [atob], [Uint8Array], [Blob] and [File].

    JavaScript strings are modelled by [string], each [ascii] being read as
    one code unit below 256 (the Latin-1 range).  On that range every host
    primitive used below is determined by the ECMAScript, HTML and File API
    specifications. *)

From Stdlib Require Import ZArith List String Ascii Bool Lia DecimalString.
From Stdlib.Strings Require Import Byte.
From Stdlib Require DecimalZ.
Import ListNotations.

Local Open Scope string_scope.
Local Open Scope Z_scope.

(** ** JavaScript values *)

Module JS.

(** The values that can flow out of the utilities: [undefined], a string, or
    one of the built-in objects reachable from [Object.prototype]. *)
Inductive value : Type :=
| Undefined
| Str (s : string)
| Builtin (name : string).

(** [ToBoolean]: [undefined] and the empty string are falsy, objects and
    functions are truthy. *)
Definition ToBoolean (v : value) : bool :=
  match v with
  | Undefined => false
  | Str EmptyString => false
  | Str _ => true
  | Builtin _ => true
  end.

(** Numbers, as far as the date getters need them: an integer or [NaN]. *)
Inductive number : Type :=
| NaN
| Num (z : Z).

(** Code unit of a character and back. *)
Definition code (c : ascii) : Z := Z.of_N (N_of_ascii c).
Definition chr (z : Z) : ascii := ascii_of_N (Z.to_N z).

(** [String.prototype.length]. *)
Definition length (s : string) : Z := Z.of_nat (String.length s).

(** [String.prototype.split] with a separator of one code unit: the array
    of the segments between the separators, never empty. *)
Fixpoint split (sep : ascii) (s : string) : list string :=
  match s with
  | EmptyString => [EmptyString]
  | String c s' =>
      if Ascii.eqb c sep then EmptyString :: split sep s'
      else match split sep s' with
           | seg :: rest => String c seg :: rest
           | [] => [String c EmptyString]
           end
  end.

(** [Array.prototype.pop]: the last element, [None] (that is [undefined])
    on the empty array. *)
Fixpoint pop {A : Type} (l : list A) : option A :=
  match l with
  | [] => None
  | [x] => Some x
  | _ :: l' => pop l'
  end.

(** Lower-casing of one code unit of the Latin-1 range: A-Z and the
    accented capitals U+00C0..U+00DE (U+00D7, the multiplication sign,
    apart) move up by 32. *)
Definition lower_unit (c : ascii) : ascii :=
  let n := code c in
  if ((65 <=? n) && (n <=? 90))
     || ((192 <=? n) && (n <=? 222) && negb (n =? 215))
  then chr (n + 32) else c.

(** [String.prototype.toLowerCase]. *)
Fixpoint toLowerCase (s : string) : string :=
  match s with
  | EmptyString => EmptyString
  | String c s' => String (lower_unit c) (toLowerCase s')
  end.

(** Own properties of an object literal, in source order. *)
Definition object := list (string * string).

Fixpoint own (o : object) (k : string) : option string :=
  match o with
  | [] => None
  | (k', v) :: o' => if String.eqb k k' then Some v else own o' k
  end.

(** The properties every object literal inherits from [Object.prototype]
    (ECMAScript 20.1.3 and Annex B.2.2). *)
Definition Object_prototype : list (string * value) :=
  [ ("constructor", Builtin "Object");
    ("__proto__", Builtin "Object.prototype");
    ("__defineGetter__", Builtin "Object.prototype.__defineGetter__");
    ("__defineSetter__", Builtin "Object.prototype.__defineSetter__");
    ("__lookupGetter__", Builtin "Object.prototype.__lookupGetter__");
    ("__lookupSetter__", Builtin "Object.prototype.__lookupSetter__");
    ("hasOwnProperty", Builtin "Object.prototype.hasOwnProperty");
    ("isPrototypeOf", Builtin "Object.prototype.isPrototypeOf");
    ("propertyIsEnumerable", Builtin "Object.prototype.propertyIsEnumerable");
    ("toLocaleString", Builtin "Object.prototype.toLocaleString");
    ("toString", Builtin "Object.prototype.toString");
    ("valueOf", Builtin "Object.prototype.valueOf") ].

Fixpoint inherited (p : list (string * value)) (k : string) : option value :=
  match p with
  | [] => None
  | (k', v) :: p' => if String.eqb k k' then Some v else inherited p' k
  end.

(** Property access [o[k]] on an object literal: the own property if there
    is one, else the one found on [Object.prototype], else [undefined]. *)
Definition Get (o : object) (k : string) : value :=
  match own o k with
  | Some v => Str v
  | None =>
      match inherited Object_prototype k with
      | Some v => v
      | None => Undefined
      end
  end.

End JS.

(** ** File-type classification *)

Definition fileExtensions : JS.object :=
  [ ("bmp", "image/bmp");
    ("csv", "text/csv");
    ("doc", "doc");
    ("docx", "doc");
    ("gif", "image/gif");
    ("jpg", "image/jpg");
    ("jpeg", "image/jpeg");
    ("pptx", "ppt");
    ("pdf", "application/pdf");
    ("png", "image/png");
    ("tiff", "image/tiff");
    ("mp4", "video/mp4") ].

(** [filename.split('.').pop()?.toLowerCase()]: [None] is [undefined]. *)
Definition extension_of (filename : string) : option string :=
  option_map JS.toLowerCase (JS.pop (JS.split "." filename)).

(** [getFileType]: the value of [fileExtensions[extension]] when both the
    extension and that value are truthy, else [extension ?? ""]. *)
Definition getFileType (filename : string) : JS.value :=
  match extension_of filename with
  | Some extension =>
      if JS.ToBoolean (JS.Str extension)
         && JS.ToBoolean (JS.Get fileExtensions extension)
      then JS.Get fileExtensions extension
      else JS.Str extension
  | None => JS.Str ""
  end.

(** ** Numbers and strings of the host *)

Module Num.

Import JS.

(** [Number.prototype.toString] and the [ToString] of template literals, on
    integers (well below 1e21, so never in exponent notation) and [NaN]. *)
Definition toString (n : number) : string :=
  match n with
  | NaN => "NaN"
  | Num z => DecimalString.NilZero.string_of_int (Z.to_int z)
  end.

(** The [+] of two numbers. *)
Definition add (a b : number) : number :=
  match a, b with
  | Num x, Num y => Num (x + y)
  | _, _ => NaN
  end.

(** The first [n] code units of [fill] repeated for ever; [cur] is what is
    left of the copy being read. *)
Fixpoint filler (n : nat) (cur fill : string) : string :=
  match n with
  | O => EmptyString
  | S n' =>
      match cur with
      | String c r => String c (filler n' r fill)
      | EmptyString =>
          match fill with
          | String c r => String c (filler n' r fill)
          | EmptyString => EmptyString
          end
      end
  end.

(** [String.prototype.padStart]: a string already of the target length or
    longer is returned as it is. *)
Definition padStart (s : string) (maxLength : Z) (fillString : string) : string :=
  if maxLength <=? JS.length s then s
  else filler (Z.to_nat (maxLength - JS.length s)) fillString fillString ++ s.

End Num.

(** ** The calendar arithmetic of ECMAScript dates (section 21.4.1) *)

Module Date.

Import JS.

Definition msPerDay : Z := 86400000.
Definition msPerHour : Z := 3600000.
Definition msPerMinute : Z := 60000.
Definition msPerSecond : Z := 1000.

Definition Day (t : Z) : Z := t / msPerDay.
Definition TimeWithinDay (t : Z) : Z := t mod msPerDay.

Definition DaysInYear (y : Z) : Z :=
  if negb (y mod 4 =? 0) then 365
  else if negb (y mod 100 =? 0) then 366
  else if negb (y mod 400 =? 0) then 365
  else 366.

Definition DayFromYear (y : Z) : Z :=
  365 * (y - 1970) + (y - 1969) / 4 - (y - 1901) / 100 + (y - 1601) / 400.

Definition TimeFromYear (y : Z) : Z := msPerDay * DayFromYear y.

(** The year of a day number: the largest [y] with [DayFromYear y <= d].
    A year lasts 146097/400 days on average, which places [y] within one
    year of the quotient; the two comparisons settle it. *)
Definition YearFromDay (d : Z) : Z :=
  let y := 1970 + (400 * d) / 146097 in
  if DayFromYear (y + 1) <=? d then y + 1
  else if DayFromYear y <=? d then y
  else y - 1.

Definition YearFromTime (t : Z) : Z := YearFromDay (Day t).

Definition InLeapYear (t : Z) : Z := DaysInYear (YearFromTime t) - 365.

Definition DayWithinYear (t : Z) : Z := Day t - DayFromYear (YearFromTime t).

Definition MonthFromTime (t : Z) : Z :=
  let d := DayWithinYear t in
  let l := InLeapYear t in
  if d <? 31 then 0
  else if d <? 59 + l then 1
  else if d <? 90 + l then 2
  else if d <? 120 + l then 3
  else if d <? 151 + l then 4
  else if d <? 181 + l then 5
  else if d <? 212 + l then 6
  else if d <? 243 + l then 7
  else if d <? 273 + l then 8
  else if d <? 304 + l then 9
  else if d <? 334 + l then 10
  else 11.

(** Days of the year before month [m] (0 to 11, January being 0). *)
Definition DaysBeforeMonth (m l : Z) : Z :=
  match m with
  | 0 => 0
  | 1 => 31
  | 2 => 59 + l
  | 3 => 90 + l
  | 4 => 120 + l
  | 5 => 151 + l
  | 6 => 181 + l
  | 7 => 212 + l
  | 8 => 243 + l
  | 9 => 273 + l
  | 10 => 304 + l
  | _ => 334 + l
  end.

Definition DateFromTime (t : Z) : Z :=
  DayWithinYear t + 1 - DaysBeforeMonth (MonthFromTime t) (InLeapYear t).

Definition HourFromTime (t : Z) : Z := (t / msPerHour) mod 24.
Definition MinFromTime (t : Z) : Z := (t / msPerMinute) mod 60.

(** [MakeTime], [MakeDay], [MakeDate] and [TimeClip] on integers.  In
    [MakeDay] months beyond December carry into the year and days beyond
    the end of the month carry into the next one. *)
Definition MakeTime (hour min sec ms : Z) : Z :=
  hour * msPerHour + min * msPerMinute + sec * msPerSecond + ms.

Definition MakeDay (year month date : Z) : Z :=
  let ym := year + month / 12 in
  let mn := month mod 12 in
  DayFromYear ym + DaysBeforeMonth mn (DaysInYear ym - 365) + date - 1.

Definition MakeDate (day time : Z) : Z := day * msPerDay + time.

Definition TimeClip (t : Z) : option Z :=
  if Z.abs t <=? 8640000000000000 then Some t else None.

(** What the host decides: how a string is parsed (to a time value, or to
    nothing, that is [NaN]), and the offset of local time at a moment. *)
Record Host : Type := {
  parse : string -> option Z;
  LocalTZA : Z -> Z
}.

Section WithHost.

Variable host : Host.

(** A date object is its time value; [None] is the invalid date. *)
Definition t : Type := option Z.

(** [new Date(string)]. *)
Definition new (s : string) : t :=
  match parse host s with
  | Some tv => TimeClip tv
  | None => None
  end.

Definition LocalTime (tv : Z) : Z := tv + LocalTZA host tv.

Definition getter (f : Z -> Z) (d : t) : number :=
  match d with
  | None => NaN
  | Some tv => Num (f (LocalTime tv))
  end.

Definition getFullYear : t -> number := getter YearFromTime.
Definition getMonth : t -> number := getter MonthFromTime.
Definition getDate : t -> number := getter DateFromTime.
Definition getHours : t -> number := getter HourFromTime.
Definition getMinutes : t -> number := getter MinFromTime.

End WithHost.

End Date.

(** ** Date formatting *)

Section FormatDate.

Variable host : Date.Host.

(** [formatDate]: the empty string is the only falsy string. *)
Definition formatDate (inputDate : string) : string :=
  match inputDate with
  | EmptyString => ""
  | _ =>
      let date := Date.new host inputDate in
      let year := Date.getFullYear host date in
      let month :=
        Num.padStart (Num.toString (Num.add (Date.getMonth host date) (JS.Num 1))) 2 "0" in
      let day := Num.padStart (Num.toString (Date.getDate host date)) 2 "0" in
      let hours := Num.padStart (Num.toString (Date.getHours host date)) 2 "0" in
      let minutes := Num.padStart (Num.toString (Date.getMinutes host date)) 2 "0" in
      Num.toString year ++ "/" ++ month ++ "/" ++ day ++ " " ++ hours ++ ":" ++ minutes
  end.

End FormatDate.

(** ** A host: the ECMAScript date-time string format, fixed offset

    [Date.parse] must accept the format [YYYY-MM-DDTHH:mm:ss.sssZ] of
    ECMAScript 21.4.1.32 and may reject everything else; this host does
    exactly that, and keeps local time at a fixed offset from UTC. *)

Module IsoHost.

Import JS.

Notation "x <- e ;; k" :=
  (match e with Some x => k | None => None end)
  (at level 61, e at next level, right associativity, only parsing).
Notation "' ( x , y ) <- e ;; k" :=
  (match e with Some (x, y) => k | None => None end)
  (at level 61, x name, y name, e at next level, right associativity,
   only parsing).

Definition digit (c : ascii) : option Z :=
  let n := code c in
  if (48 <=? n) && (n <=? 57) then Some (n - 48) else None.

(** Exactly [n] decimal digits, most significant first. *)
Fixpoint digits (n : nat) (acc : Z) (s : string) : option (Z * string) :=
  match n with
  | O => Some (acc, s)
  | S n' =>
      match s with
      | String c r => d <- digit c ;; digits n' (10 * acc + d) r
      | EmptyString => None
      end
  end.

Definition within (lo hi v : Z) : option unit :=
  if (lo <=? v) && (v <=? hi) then Some tt else None.

(** The year: four digits, or a sign and six digits; minus zero is not a
    year. *)
Definition year (s : string) : option (Z * string) :=
  match s with
  | String "+" r => digits 6 0 r
  | String "-" r =>
      '(y, r') <- digits 6 0 r ;;
      if y =? 0 then None else Some (- y, r')
  | _ => digits 4 0 s
  end.

(** After a field, [-NN] within [lo..hi], or nothing (then [dflt]). *)
Definition dash_field (lo hi dflt : Z) (s : string) : option (Z * string) :=
  match s with
  | String "-" r =>
      '(v, r') <- digits 2 0 r ;;
      _ <- within lo hi v ;;
      Some (v, r')
  | _ => Some (dflt, s)
  end.

(** The day number of the date part, and what follows it. *)
Definition date (s : string) : option (Z * string) :=
  '(y, r1) <- year s ;;
  match r1 with
  | String "-" _ =>
      '(m, r2) <- dash_field 1 12 1 r1 ;;
      '(d, r3) <- dash_field 1 31 1 r2 ;;
      Some (Date.MakeDay y (m - 1) d, r3)
  | _ => Some (Date.MakeDay y 0 1, r1)
  end.

(** Seconds and milliseconds: [:ss], [:ss.sss], or nothing. *)
Definition seconds (s : string) : option (Z * Z * string) :=
  match s with
  | String ":" r =>
      '(sec, r1) <- digits 2 0 r ;;
      _ <- within 0 59 sec ;;
      match r1 with
      | String "." r2 =>
          '(ms, r3) <- digits 3 0 r2 ;;
          Some (sec, ms, r3)
      | _ => Some (sec, 0, r1)
      end
  | _ => Some (0, 0, s)
  end.

(** Where the time of day is counted from. *)
Inductive zone : Type :=
| Local
| Offset (ms : Z).

Definition utc_offset (s : string) : option zone :=
  match s with
  | EmptyString => Some Local
  | String "Z" EmptyString => Some (Offset 0)
  | String sign r =>
      sgn <- (if Ascii.eqb sign "+" then Some 1
              else if Ascii.eqb sign "-" then Some (-1) else None) ;;
      '(h, r1) <- digits 2 0 r ;;
      _ <- within 0 23 h ;;
      match r1 with
      | String ":" r2 =>
          '(m, r3) <- digits 2 0 r2 ;;
          _ <- within 0 59 m ;;
          match r3 with
          | EmptyString => Some (Offset (sgn * Date.MakeTime h m 0 0))
          | _ => None
          end
      | _ => None
      end
  end.

(** The time part [THH:mm...] with its offset; hour 24 is midnight at the
    end of the day and admits no minutes. *)
Definition time (s : string) : option (Z * zone) :=
  match s with
  | String "T" r =>
      '(h, r1) <- digits 2 0 r ;;
      _ <- within 0 24 h ;;
      match r1 with
      | String ":" r2 =>
          '(m, r3) <- digits 2 0 r2 ;;
          _ <- within 0 59 m ;;
          x <- seconds r3 ;;
          let '(sec, ms, r4) := x in
          z <- utc_offset r4 ;;
          if (h =? 24) && negb ((m =? 0) && (sec =? 0) && (ms =? 0)) then None
          else Some (Date.MakeTime h m sec ms, z)
      | _ => None
      end
  | _ => None
  end.

(** The fields of a date-time string: a date alone is a UTC date; a date
    with a time is local unless it carries an offset. *)
Definition fields (s : string) : option (Z * zone) :=
  '(day, r) <- date s ;;
  match r with
  | EmptyString => Some (Date.MakeDate day 0, Offset 0)
  | _ =>
      '(tm, z) <- time r ;;
      Some (Date.MakeDate day tm, z)
  end.

Definition parse (offset : Z) (s : string) : option Z :=
  '(tv, z) <- fields s ;;
  match z with
  | Local => Some (tv - offset)
  | Offset o => Some (tv - o)
  end.

Definition host (offset : Z) : Date.Host :=
  {| Date.parse := parse offset; Date.LocalTZA := fun _ => offset |}.

End IsoHost.

(** ** Errors *)

Inductive exn : Type :=
| InvalidCharacterError.

(** The outcome of a call: a value, or an exception on its way to the
    caller. *)
Inductive result (A : Type) : Type :=
| Ok (a : A)
| Throw (e : exn).

Arguments Ok {A} a.
Arguments Throw {A} e.

Definition bind {A B : Type} (r : result A) (k : A -> result B) : result B :=
  match r with
  | Ok a => k a
  | Throw e => Throw e
  end.

Notation "'let*' x ':=' e 'in' k" := (bind e (fun x => k))
  (at level 10, x name, e at level 200, k at level 200, only parsing).

(** ** Bytes *)

Definition Z_of_byte (b : byte) : Z := Z.of_N (Byte.to_N b).

(** The byte congruent to [z] modulo 256. *)
Definition byte_of_Z (z : Z) : byte :=
  match Byte.of_N (Z.to_N (z mod 256)) with
  | Some b => b
  | None => x00
  end.

(** ** [atob]: the forgiving base64 decoder of the HTML standard *)

Module Base64.

Import JS.

(** Value of a code point in the alphabet of RFC 4648, table 1. *)
Definition sextet (c : ascii) : option Z :=
  let n := code c in
  if (65 <=? n) && (n <=? 90) then Some (n - 65)
  else if (97 <=? n) && (n <=? 122) then Some (n - 71)
  else if (48 <=? n) && (n <=? 57) then Some (n + 4)
  else if n =? 43 then Some 62
  else if n =? 47 then Some 63
  else None.

(** ASCII whitespace: tab, line feed, form feed, carriage return, space. *)
Definition is_whitespace (c : ascii) : bool :=
  let n := code c in
  (n =? 9) || (n =? 10) || (n =? 12) || (n =? 13) || (n =? 32).

Fixpoint remove_whitespace (s : string) : string :=
  match s with
  | EmptyString => EmptyString
  | String c r =>
      if is_whitespace c then remove_whitespace r
      else String c (remove_whitespace r)
  end.

(** Removes the one or two [=] that end the string, if any. *)
Fixpoint strip_padding (s : string) : string :=
  match s with
  | EmptyString => EmptyString
  | String "=" EmptyString => EmptyString
  | String "=" (String "=" EmptyString) => EmptyString
  | String c r => String c (strip_padding r)
  end.

(** The values of the code points, unless one is outside the alphabet. *)
Fixpoint sextets (s : string) : option (list Z) :=
  match s with
  | EmptyString => Some []
  | String c r =>
      match sextet c, sextets r with
      | Some v, Some vs => Some (v :: vs)
      | _, _ => None
      end
  end.

(** The bit buffer: six bits come in with every code point and three bytes
    go out whenever it holds 24; what is left at the end gives one byte
    (12 bits, the last four dropped), two bytes (18 bits, the last two
    dropped) or nothing. *)
Fixpoint drain (vs : list Z) (buffer nbits : Z) : string :=
  match vs with
  | [] =>
      if nbits =? 12 then String (chr (Z.shiftr buffer 4)) EmptyString
      else if nbits =? 18 then
        String (chr (Z.shiftr buffer 10))
          (String (chr (Z.land (Z.shiftr buffer 2) 255)) EmptyString)
      else EmptyString
  | v :: vs' =>
      let buffer := Z.lor (Z.shiftl buffer 6) v in
      let nbits := nbits + 6 in
      if nbits =? 24 then
        String (chr (Z.shiftr buffer 16))
          (String (chr (Z.land (Z.shiftr buffer 8) 255))
             (String (chr (Z.land buffer 255)) (drain vs' 0 0)))
      else drain vs' buffer nbits
  end.

(** Forgiving base64 decode: [None] is failure. *)
Definition forgiving_decode (data : string) : option string :=
  let data := remove_whitespace data in
  let data := if JS.length data mod 4 =? 0 then strip_padding data else data in
  if JS.length data mod 4 =? 1 then None
  else match sextets data with
       | Some vs => Some (drain vs 0 0)
       | None => None
       end.

(** [atob]: the decoded bytes as a binary string, one code unit a byte; a
    failure is thrown as an [InvalidCharacterError]. *)
Definition atob (data : string) : result string :=
  match forgiving_decode data with
  | Some s => Ok s
  | None => Throw InvalidCharacterError
  end.

Definition alphabet : string :=
  "ABCDEFGHIJKLMNOPQRSTUVWXYZabcdefghijklmnopqrstuvwxyz0123456789+/".

Definition digit64 (v : Z) : ascii :=
  match String.get (Z.to_nat v) alphabet with
  | Some c => c
  | None => "="%char
  end.

(** Modelled from the spec: the reference encoder of the round-trip law,
    which the repository does not contain.  It is the base64 encoding of
    RFC 4648, section 4: three bytes give four digits, and a last group of
    one or two bytes is padded with [=]. *)
Fixpoint encodeBase64 (b : list byte) : string :=
  match b with
  | [] => EmptyString
  | [b0] =>
      let n := Z.shiftl (Z_of_byte b0) 16 in
      String (digit64 (Z.shiftr n 18))
        (String (digit64 (Z.land (Z.shiftr n 12) 63)) "==")
  | [b0; b1] =>
      let n := Z.lor (Z.shiftl (Z_of_byte b0) 16) (Z.shiftl (Z_of_byte b1) 8) in
      String (digit64 (Z.shiftr n 18))
        (String (digit64 (Z.land (Z.shiftr n 12) 63))
           (String (digit64 (Z.land (Z.shiftr n 6) 63)) "="))
  | b0 :: b1 :: b2 :: rest =>
      let n := Z.lor (Z.lor (Z.shiftl (Z_of_byte b0) 16)
                            (Z.shiftl (Z_of_byte b1) 8)) (Z_of_byte b2) in
      String (digit64 (Z.shiftr n 18))
        (String (digit64 (Z.land (Z.shiftr n 12) 63))
           (String (digit64 (Z.land (Z.shiftr n 6) 63))
              (String (digit64 (Z.land n 63)) (encodeBase64 rest))))
  end.

End Base64.

(** ** Typed arrays, blobs and files *)

Module Uint8Array.

(** [new Uint8Array(length)]: [length] zero bytes. *)
Definition new (length : Z) : list byte := repeat x00 (Z.to_nat length).

(** [ToUint8]: [NaN] becomes 0, an integer is taken modulo 256. *)
Definition ToUint8 (n : JS.number) : byte :=
  match n with
  | JS.NaN => x00
  | JS.Num z => byte_of_Z z
  end.

Fixpoint update (l : list byte) (i : nat) (b : byte) : list byte :=
  match l, i with
  | [], _ => []
  | _ :: l', O => b :: l'
  | x :: l', S i' => x :: update l' i' b
  end.

(** [bytes[i] = v]: a write outside the array is ignored. *)
Definition set (bytes : list byte) (i : Z) (v : JS.number) : list byte :=
  if i <? 0 then bytes else update bytes (Z.to_nat i) (ToUint8 v).

End Uint8Array.

(** [String.prototype.charCodeAt]: [NaN] outside the string. *)
Definition charCodeAt (s : string) (i : Z) : JS.number :=
  if i <? 0 then JS.NaN
  else match String.get (Z.to_nat i) s with
       | Some c => JS.Num (JS.code c)
       | None => JS.NaN
       end.

Module Blob.

(** UTF-8 of one code unit of the Latin-1 range: itself below 128, two
    bytes from 128 on. *)
Definition utf8_unit (c : ascii) : list byte :=
  let n := JS.code c in
  if n <? 128 then [byte_of_Z n]
  else [byte_of_Z (Z.lor 192 (Z.shiftr n 6)); byte_of_Z (Z.lor 128 (Z.land n 63))].

(** [new Blob([s])]: a string part contributes its UTF-8 encoding. *)
Fixpoint of_string (s : string) : list byte :=
  match s with
  | EmptyString => []
  | String c r => utf8_unit c ++ of_string r
  end.

End Blob.

(** A [File]: its name, its bytes and its media type. *)
Record File : Type := {
  name : string;
  bytes : list byte;
  type : string
}.

Definition size (f : File) : Z := Z.of_nat (List.length (bytes f)).

(** [new File([blob], filename)]: the bytes of the blob under the given
    name; without options the type is empty. *)
Definition File_new (blob : list byte) (filename : string) : File :=
  {| name := filename; bytes := blob; type := "" |}.

(** ** Binary conversions *)

(** The loop [for (let i = 0; i < length; i++) bytes[i] = ...], by the
    number of iterations still to run. *)
Fixpoint fill (remaining : nat) (i : Z) (binaryString : string)
    (bytes : list byte) : list byte :=
  match remaining with
  | O => bytes
  | S r =>
      fill r (i + 1) binaryString
        (Uint8Array.set bytes i (charCodeAt binaryString i))
  end.

Definition base64ToArrayBuffer (base64 : string) : result (list byte) :=
  let* binaryString := Base64.atob base64 in
  let length := JS.length binaryString in
  let bytes := Uint8Array.new length in
  Ok (fill (Z.to_nat length) 0 binaryString bytes).

Definition base64ToFile (base64 filename : string) : result File :=
  let* binaryString := Base64.atob base64 in
  let blob := Blob.of_string binaryString in
  Ok (File_new blob filename).

(** ** Vocabulary of the specification *)

(** No code unit of [s] is [sep]. *)
Fixpoint free_of (sep : ascii) (s : string) : bool :=
  match s with
  | EmptyString => true
  | String c r => negb (Ascii.eqb c sep) && free_of sep r
  end.

(** The classification as the specification words it: the label of the
    table for a key of the table, the extension itself otherwise. *)
Definition classify_by_table (ext : string) : JS.value :=
  match JS.own fileExtensions ext with
  | Some label => JS.Str label
  | None => JS.Str ext
  end.

(** A decimal digit. *)
Definition is_digit (c : ascii) : bool :=
  (48 <=? JS.code c) && (JS.code c <=? 57).

Definition is_letter (c : ascii) : bool :=
  ((65 <=? JS.code c) && (JS.code c <=? 90))
  || ((97 <=? JS.code c) && (JS.code c <=? 122)).

(** [matches pattern s]: [s] has a digit wherever [pattern] has a letter
    and the character of [pattern] everywhere else, and ends with it. *)
Fixpoint matches (pattern s : string) : bool :=
  match pattern, s with
  | EmptyString, EmptyString => true
  | String p pattern', String c s' =>
      (if is_letter p then is_digit c else Ascii.eqb p c)
      && matches pattern' s'
  | _, _ => false
  end.

Definition date_pattern : string := "YYYY/MM/DD HH:mm".

(** The two decimal digits of a number from 0 to 99. *)
Definition two (n : Z) : string :=
  String (JS.chr (48 + n / 10)) (String (JS.chr (48 + n mod 10)) EmptyString).

(** What [formatDate] is to write for the valid time value [tv]: the year
    as it is, then month, day, hour and minute of local time with two
    digits each. *)
Definition rendering (host : Date.Host) (tv : Z) : string :=
  let lt := Date.LocalTime host tv in
  Num.toString (JS.Num (Date.YearFromTime lt)) ++ "/"
  ++ two (Date.MonthFromTime lt + 1) ++ "/"
  ++ two (Date.DateFromTime lt) ++ " "
  ++ two (Date.HourFromTime lt) ++ ":"
  ++ two (Date.MinFromTime lt).

(** The base64 digits that [atob] decodes: the input without its ASCII
    whitespace and, when that leaves a multiple of four characters,
    without the one or two [=] that end it. *)
Definition payload (data : string) : string :=
  let data := Base64.remove_whitespace data in
  if JS.length data mod 4 =? 0 then Base64.strip_padding data else data.

(** Code units from 128 on: the ones UTF-8 writes with two bytes. *)
Fixpoint count_high (s : string) : Z :=
  match s with
  | EmptyString => 0
  | String c r => (if JS.code c <? 128 then 0 else 1) + count_high r
  end.

(** Bytes left over by [r] digits that do not fill a group of four. *)
Definition tail_bytes (r : Z) : Z :=
  if r =? 2 then 1 else if r =? 3 then 2 else 0.

(** The values of the base64 digits. *)
Definition in_alphabet (v : Z) : Prop := 0 <= v < 64.

(** ** Vocabulary of the further properties *)

(** The four decimal digits of a number from 0 to 9999. *)
Definition four (n : Z) : string := two (n / 100) ++ two (n mod 100).

(** Days of month [m] (1 to 12) in year [y]. *)
Definition DaysInMonth (y m : Z) : Z :=
  match m with
  | 2 => 28 + (Date.DaysInYear y - 365)
  | 4 | 6 | 9 | 11 => 30
  | _ => 31
  end.

(** A local date and time in the ECMAScript format, [YYYY-MM-DDTHH:mm:ss]. *)
Definition iso_local (y m d h mi sec : Z) : string :=
  four y ++ String "-" (two m ++ String "-" (two d ++ String "T"
    (two h ++ String ":" (two mi ++ String ":" (two sec))))).

(** Bytes from 128 on. *)
Fixpoint high_bytes (l : list byte) : Z :=
  match l with
  | [] => 0
  | b :: l' => (if Z_of_byte b <? 128 then 0 else 1) + high_bytes l'
  end.

(** Reading back the first code unit of a UTF-8 encoding of the Latin-1
    range: one byte below 128, else the low bits of two bytes. *)
Definition utf8_first (l : list byte) : option (ascii * list byte) :=
  match l with
  | [] => None
  | b :: l' =>
      let n := Z_of_byte b in
      if n <? 128 then Some (JS.chr n, l')
      else match l' with
           | b2 :: l'' =>
               Some (JS.chr (Z.lor (Z.shiftl (Z.land n 31) 6)
                                   (Z.land (Z_of_byte b2) 63)), l'')
           | [] => None
           end
  end.

(** ** The QR code page

    One run of a handler of [QRCodePage] is modelled by the calls it makes,
    in order, on the state setters, the backend and the error messages,
    given how the awaited backend call ends.  [Course] and [QRCodeScanResult] are
    the types of the backend; the page reads the [id] of a course and the
    [file.url] and [file.display_name] of a scan result only. *)

Module QRCodePage.

(** How an awaited [invoke] ends: with a value, or with a thrown one. *)
Inductive outcome (A : Type) : Type :=
| Resolved (a : A)
| Rejected (e : string).

Arguments Resolved {A} a.
Arguments Rejected {A} e.

(** The texts of the error messages: a thrown value as it is, and a thrown
    value behind the read-error prefix of [handleGetQRCode]. *)
Inductive content : Type :=
| Thrown (e : string)
| ReadError (e : string).

Section Page.

Variables Course QRCodeScanResult : Type.
Variable id : Course -> Z.
Variables url display_name : QRCodeScanResult -> string.

Inductive action : Type :=
| setCourses (courses : list Course)
| setOperating (operating : bool)
| setScanResults (scanResults : list QRCodeScanResult)
| invoke_list_courses
| invoke_filter_course_qrcode_images (courseId : Z)
| message_error (c : content).

Definition initCourses (r : outcome (list Course)) : list action :=
  invoke_list_courses ::
  match r with
  | Resolved courses => [setCourses courses]
  | Rejected e => [message_error (Thrown e)]
  end.

Definition handleGetQRCode (r : outcome (list QRCodeScanResult)) (courseId : Z)
  : list action :=
  setOperating true ::
  invoke_filter_course_qrcode_images courseId ::
  match r with
  | Resolved scanResults => [setScanResults scanResults]
  | Rejected e => [message_error (ReadError e)]
  end ++ [setOperating false].

(** [courses.find(course => course.id === courseId)] is a course, which is
    truthy, or [undefined]. *)
Definition handleCourseSelect (courses : list Course)
    (r : outcome (list QRCodeScanResult)) (courseId : Z) : list action :=
  match List.find (fun course => id course =? courseId) courses with
  | Some _ => handleGetQRCode r courseId
  | None => []
  end.

(** The three pieces of state of the component, and what a call does to
    them: a setter replaces its piece, the other calls leave the state. *)
Record state : Type := {
  courses : list Course;
  operating : bool;
  scanResults : list QRCodeScanResult
}.

(** The state of the first render: [useState([])], [useState(false)],
    [useState([])]. *)
Definition initial : state :=
  {| courses := []; operating := false; scanResults := [] |}.

Definition step (st : state) (a : action) : state :=
  match a with
  | setCourses cs =>
      {| courses := cs; operating := operating st; scanResults := scanResults st |}
  | setOperating b =>
      {| courses := courses st; operating := b; scanResults := scanResults st |}
  | setScanResults rs =>
      {| courses := courses st; operating := operating st; scanResults := rs |}
  | _ => st
  end.

Definition run (st : state) (actions : list action) : state :=
  fold_left step actions st.

(** What is rendered below the layout: the course select, then the grid of
    cards (image source and title) and the empty placeholder, each under
    its condition. *)
Inductive element : Type :=
| CourseSelect (disabled : bool) (courses : list Course)
| CardList (cards : list (string * string))
| Empty.

Definition render (st : state) : list element :=
  CourseSelect (operating st) (courses st) ::
  (if (0 <? Z.of_nat (List.length (scanResults st)))
   then [CardList (map (fun scanResult => (url scanResult, display_name scanResult))
                       (scanResults st))]
   else [])
  ++ (if (Z.of_nat (List.length (scanResults st)) =? 0) then [Empty] else []).

End Page.

Arguments setCourses {Course QRCodeScanResult} courses.
Arguments setOperating {Course QRCodeScanResult} operating.
Arguments setScanResults {Course QRCodeScanResult} scanResults.
Arguments invoke_list_courses {Course QRCodeScanResult}.
Arguments invoke_filter_course_qrcode_images {Course QRCodeScanResult} courseId.
Arguments message_error {Course QRCodeScanResult} c.
Arguments initCourses {Course QRCodeScanResult} r.
Arguments handleGetQRCode {Course QRCodeScanResult} r courseId.
Arguments handleCourseSelect {Course QRCodeScanResult} id courses r courseId.
Arguments courses {Course QRCodeScanResult} s.
Arguments operating {Course QRCodeScanResult} s.
Arguments scanResults {Course QRCodeScanResult} s.
Arguments initial {Course QRCodeScanResult}.
Arguments step {Course QRCodeScanResult} st a.
Arguments run {Course QRCodeScanResult} st actions.
Arguments CourseSelect {Course} disabled courses.
Arguments CardList {Course} cards.
Arguments Empty {Course}.
Arguments render {Course QRCodeScanResult} url display_name st.

End QRCodePage.

(** * File-type classification: proofs *)

Section Split.

Variable sep : ascii.

Lemma split_not_nil (s : string) : JS.split sep s <> [].
Proof.
  destruct s as [|c r]; simpl; [discriminate|].
  destruct (Ascii.eqb c sep); [discriminate|].
  destruct (JS.split sep r); discriminate.
Qed.

Lemma pop_cons {A : Type} (x : A) (l : list A) :
  l <> [] -> JS.pop (x :: l) = JS.pop l.
Proof. destruct l; [congruence | reflexivity]. Qed.

Lemma split_free (s : string) : free_of sep s = true -> JS.split sep s = [s].
Proof.
  induction s as [|c r IH]; simpl; [reflexivity|].
  destruct (Ascii.eqb c sep); simpl; [discriminate|].
  intros H. rewrite (IH H). reflexivity.
Qed.

(** A separator inside the string gives at least two segments. *)
Lemma split_app_two (a b : string) :
  exists seg x rest, JS.split sep (a ++ String sep b) = seg :: x :: rest.
Proof.
  induction a as [|c a IH]; simpl.
  - rewrite Ascii.eqb_refl.
    destruct (JS.split sep b) as [|x rest] eqn:E.
    + now apply split_not_nil in E.
    + now exists EmptyString, x, rest.
  - destruct IH as (seg & x & rest & ->).
    destruct (Ascii.eqb c sep); eauto.
Qed.

(** The last segment is the last segment of what follows a separator. *)
Lemma pop_split_app (a b : string) :
  JS.pop (JS.split sep (a ++ String sep b)) = JS.pop (JS.split sep b).
Proof.
  induction a as [|c a IH]; simpl.
  - rewrite Ascii.eqb_refl. apply pop_cons, split_not_nil.
  - destruct (split_app_two a b) as (seg & x & rest & E).
    rewrite E in IH |- *.
    destruct (Ascii.eqb c sep); exact IH.
Qed.

End Split.

Lemma extension_of_dotted (a b : string) :
  free_of "." b = true ->
  extension_of (a ++ String "." b) = Some (JS.toLowerCase b).
Proof.
  intros H. unfold extension_of.
  now rewrite pop_split_app, (split_free _ _ H).
Qed.

Lemma extension_of_plain (s : string) :
  free_of "." s = true -> extension_of s = Some (JS.toLowerCase s).
Proof. intros H. unfold extension_of. now rewrite (split_free _ _ H). Qed.

(** Every label of the table is a non-empty string. *)
Lemma own_label_truthy (k label : string) :
  JS.own fileExtensions k = Some label -> JS.ToBoolean (JS.Str label) = true.
Proof.
  unfold fileExtensions; simpl.
  repeat (destruct (String.eqb k _); [now intros [= <-]|]).
  discriminate.
Qed.

(** The value the code computes from the extension it has extracted. *)
Lemma getFileType_of_extension (filename ext : string) :
  extension_of filename = Some ext ->
  getFileType filename =
    match JS.own fileExtensions ext with
    | Some label => JS.Str label
    | None =>
        match JS.inherited JS.Object_prototype ext with
        | Some v => if JS.ToBoolean (JS.Str ext) then v else JS.Str ext
        | None => JS.Str ext
        end
    end.
Proof.
  intros E. unfold getFileType. rewrite E. unfold JS.Get.
  destruct (JS.own fileExtensions ext) as [label|] eqn:Eo.
  - rewrite (own_label_truthy _ _ Eo), andb_true_r.
    destruct ext; [discriminate Eo | reflexivity].
  - destruct (JS.inherited JS.Object_prototype ext) as [v|] eqn:Ei.
    + assert (Hv : JS.ToBoolean v = true).
      { revert Ei. unfold JS.Object_prototype. cbn [JS.inherited].
        repeat (destruct (String.eqb _ _); [now intros [= <-]|]).
        discriminate. }
      rewrite Hv, andb_true_r. reflexivity.
    + cbn [JS.ToBoolean]. now rewrite andb_false_r.
Qed.

(** On a name with a dot the code agrees with the specification's
    classification as long as the lower-cased last segment does not name a
    property of [Object.prototype]. *)
Lemma getFileType_dotted (a b : string) :
  free_of "." b = true ->
  JS.inherited JS.Object_prototype (JS.toLowerCase b) = None ->
  getFileType (a ++ String "." b) = classify_by_table (JS.toLowerCase b).
Proof.
  intros Hb Hi.
  rewrite (getFileType_of_extension _ _ (extension_of_dotted a b Hb)), Hi.
  unfold classify_by_table.
  reflexivity.
Qed.

(** A name without a dot is classified by the whole of it. *)
Lemma getFileType_plain (s : string) :
  free_of "." s = true ->
  JS.inherited JS.Object_prototype (JS.toLowerCase s) = None ->
  getFileType s = classify_by_table (JS.toLowerCase s).
Proof.
  intros Hs Hi.
  now rewrite (getFileType_of_extension _ _ (extension_of_plain s Hs)), Hi.
Qed.

Lemma toLowerCase_not_empty (s : string) : s <> "" -> JS.toLowerCase s <> "".
Proof. destruct s; [congruence | discriminate]. Qed.

(** No name without a dot is classified as the empty string, the empty
    name apart. *)
Lemma getFileType_plain_not_empty (s : string) :
  free_of "." s = true -> s <> "" -> getFileType s <> JS.Str "".
Proof.
  intros Hs Hn.
  rewrite (getFileType_of_extension _ _ (extension_of_plain s Hs)).
  pose proof (toLowerCase_not_empty s Hn) as Hl.
  destruct (JS.own fileExtensions (JS.toLowerCase s)) as [label|] eqn:Eo.
  - apply own_label_truthy in Eo. intros [= ->]. discriminate Eo.
  - destruct (JS.inherited JS.Object_prototype (JS.toLowerCase s)) as [v|] eqn:Ei;
      [|congruence].
    destruct (JS.toLowerCase s) as [|c r]; [congruence|]. cbn [JS.ToBoolean].
    revert Ei. unfold JS.Object_prototype. cbn [JS.inherited].
    repeat (destruct (String.eqb _ _); [intros [= <-]; discriminate|]).
    discriminate.
Qed.

Example getFileType_photo : getFileType "photo.JPG" = JS.Str "image/jpg".
Proof. reflexivity. Qed.

Example getFileType_archive : getFileType "archive.tar.gz" = JS.Str "gz".
Proof. reflexivity. Qed.

Example getFileType_notes : getFileType "notes.docx" = JS.Str "doc".
Proof. reflexivity. Qed.

(** C1. A name without a dot is not classified as the empty string: the
    whole lower-cased name comes back, ["readme"] for ["README"]. *)
Theorem getFileType_README :
  free_of "." "README" = true /\
  getFileType "README" = JS.Str "readme" /\
  getFileType "README" <> JS.Str "".
Proof. split; [reflexivity | split; [reflexivity | discriminate]]. Qed.

(** C4. On ["a.constructor"] the lookup in the table reaches the property
    that the table inherits from [Object.prototype]: the function [Object]
    comes back, not the string ["constructor"] that the classification by
    the table alone gives. *)
Theorem getFileType_inherited_key :
  getFileType "a.constructor" = JS.Builtin "Object" /\
  classify_by_table (JS.toLowerCase "constructor") = JS.Str "constructor".
Proof. split; reflexivity. Qed.

(** C10. The empty name, and every name that ends with a dot, is
    classified as the empty string. *)
Theorem getFileType_trailing_dot :
  getFileType "" = JS.Str "" /\
  forall s : string, getFileType (s ++ ".") = JS.Str "".
Proof.
  split; [reflexivity|].
  intros s.
  now rewrite (getFileType_of_extension _ "" (extension_of_dotted s "" eq_refl)).
Qed.

(** * Dates: proofs *)

Module DateFacts.

Import Date.

Lemma DayFromYear_succ (y : Z) :
  DayFromYear (y + 1) = DayFromYear y + DaysInYear y.
Proof.
  unfold DayFromYear, DaysInYear.
  destruct (Z.eqb_spec (y mod 4) 0), (Z.eqb_spec (y mod 100) 0),
    (Z.eqb_spec (y mod 400) 0); cbn [negb];
    Z.to_euclidean_division_equations; lia.
Qed.

(** [YearFromDay] meets its definition in ECMAScript: the year it gives
    starts on or before the day, and the next year after it. *)
Lemma YearFromDay_spec (d : Z) :
  DayFromYear (YearFromDay d) <= d < DayFromYear (YearFromDay d + 1).
Proof.
  unfold YearFromDay.
  set (y := 1970 + 400 * d / 146097).
  destruct (Z.leb_spec (DayFromYear (y + 1)) d) as [H1|H1].
  - split; [exact H1|]. revert H1. subst y. unfold DayFromYear.
    Z.to_euclidean_division_equations; lia.
  - destruct (Z.leb_spec (DayFromYear y) d) as [H2|H2].
    + split; assumption.
    + replace (y - 1 + 1) with y by lia. split; [|exact H2].
      revert H2. subst y. unfold DayFromYear.
      Z.to_euclidean_division_equations; lia.
Qed.

(** No other year does. *)
Lemma YearFromDay_unique (d y : Z) :
  DayFromYear y <= d < DayFromYear (y + 1) -> YearFromDay d = y.
Proof.
  intros H. pose proof (YearFromDay_spec d) as S.
  assert (mono : forall a b, a <= b -> DayFromYear a <= DayFromYear b).
  { intros a b. unfold DayFromYear. Z.to_euclidean_division_equations; lia. }
  destruct (Z.lt_trichotomy (YearFromDay d) y) as [L|[E|G]]; [|exact E|].
  - pose proof (mono (YearFromDay d + 1) y ltac:(lia)). lia.
  - pose proof (mono (y + 1) (YearFromDay d) ltac:(lia)). lia.
Qed.

Lemma InLeapYear_range (t : Z) : InLeapYear t = 0 \/ InLeapYear t = 1.
Proof.
  unfold InLeapYear, DaysInYear.
  repeat match goal with |- context [negb ?b] => destruct b; cbn [negb] end;
    lia.
Qed.

Lemma DayWithinYear_range (t : Z) :
  0 <= DayWithinYear t < 365 + InLeapYear t.
Proof.
  unfold DayWithinYear, InLeapYear, YearFromTime.
  pose proof (YearFromDay_spec (Day t)) as S.
  rewrite DayFromYear_succ in S. lia.
Qed.

Lemma MonthFromTime_range (t : Z) : 0 <= MonthFromTime t <= 11.
Proof.
  unfold MonthFromTime.
  repeat match goal with |- context [?a <? ?b] => destruct (a <? b) end; lia.
Qed.

Lemma DateFromTime_range (t : Z) : 1 <= DateFromTime t <= 31.
Proof.
  unfold DateFromTime, MonthFromTime.
  pose proof (DayWithinYear_range t) as R.
  destruct (InLeapYear_range t) as [L|L]; rewrite L in *;
    repeat match goal with
      | |- context [?a <? ?b] => destruct (Z.ltb_spec a b)
      end; cbn [DaysBeforeMonth]; lia.
Qed.

Lemma HourFromTime_range (t : Z) : 0 <= HourFromTime t <= 23.
Proof. unfold HourFromTime. pose proof (Z.mod_pos_bound (t / msPerHour) 24). lia. Qed.

Lemma MinFromTime_range (t : Z) : 0 <= MinFromTime t <= 59.
Proof. unfold MinFromTime. pose proof (Z.mod_pos_bound (t / msPerMinute) 60). lia. Qed.

End DateFacts.

(** ** Rendering of numbers *)

(** A property checked on every integer of a range holds on the range. *)
Lemma range_check (P : Z -> bool) (lo len : Z) :
  forallb (fun n => P (lo + Z.of_nat n)) (seq 0 (Z.to_nat len)) = true ->
  forall z, lo <= z < lo + len -> P z = true.
Proof.
  intros H z Hz. rewrite forallb_forall in H.
  replace z with (lo + Z.of_nat (Z.to_nat (z - lo))) by lia.
  apply H, in_seq. lia.
Qed.

(** From 0 to 99 the padded rendering is the two decimal digits. *)
Lemma padStart_two (n : Z) :
  0 <= n <= 99 ->
  Num.padStart (Num.toString (JS.Num n)) 2 "0" = two n /\ matches "DD" (two n) = true.
Proof.
  intros H.
  assert (C : (String.eqb (Num.padStart (Num.toString (JS.Num n)) 2 "0") (two n)
               && matches "DD" (two n))%bool = true).
  { apply (range_check
             (fun n => String.eqb (Num.padStart (Num.toString (JS.Num n)) 2 "0") (two n)
                       && matches "DD" (two n))%bool 0 100);
      [vm_compute; reflexivity | lia]. }
  apply andb_true_iff in C. destruct C as [C1 C2].
  apply String.eqb_eq in C1. now split.
Qed.

(** From 1000 to 9999 a year is rendered with four digits. *)
Lemma toString_four_digits (y : Z) :
  1000 <= y <= 9999 -> matches "YYYY" (Num.toString (JS.Num y)) = true.
Proof.
  intros H.
  apply (range_check (fun y => matches "YYYY" (Num.toString (JS.Num y))) 1000 9000);
    [vm_compute; reflexivity | lia].
Qed.

Lemma matches_app (p1 p2 s1 s2 : string) :
  matches p1 s1 = true -> matches p2 s2 = true ->
  matches (p1 ++ p2) (s1 ++ s2) = true.
Proof.
  revert s1. induction p1 as [|p p1 IH]; intros [|c s1]; simpl; try discriminate.
  - auto.
  - intros H1 H2. apply andb_true_iff in H1. destruct H1 as [Hc H1].
    now rewrite Hc, (IH _ H1 H2).
Qed.

(** The pattern matches a string of its own length only. *)
Lemma matches_length (p s : string) :
  matches p s = true -> String.length s = String.length p.
Proof.
  revert s. induction p as [|c p IH]; intros [|d s]; simpl; try discriminate.
  - reflexivity.
  - intros H. apply andb_true_iff in H. now rewrite (IH _ (proj2 H)).
Qed.

(** ** [formatDate] *)

Section FormatDateFacts.

Variable host : Date.Host.

Lemma formatDate_rendering (s : string) (tv : Z) :
  s <> "" -> Date.new host s = Some tv -> formatDate host s = rendering host tv.
Proof.
  intros Hs Hd. destruct s as [|c r]; [congruence|].
  unfold formatDate, rendering. rewrite Hd.
  unfold Date.getFullYear, Date.getMonth, Date.getDate, Date.getHours,
    Date.getMinutes, Date.getter.
  cbn [Num.add].
  set (lt := Date.LocalTime host tv).
  pose proof (DateFacts.MonthFromTime_range lt).
  pose proof (DateFacts.DateFromTime_range lt).
  pose proof (DateFacts.HourFromTime_range lt).
  pose proof (DateFacts.MinFromTime_range lt).
  rewrite (proj1 (padStart_two (Date.MonthFromTime lt + 1) ltac:(lia))).
  rewrite (proj1 (padStart_two (Date.DateFromTime lt) ltac:(lia))).
  rewrite (proj1 (padStart_two (Date.HourFromTime lt) ltac:(lia))).
  rewrite (proj1 (padStart_two (Date.MinFromTime lt) ltac:(lia))).
  reflexivity.
Qed.

(** After the year the rendering follows the pattern, whatever the year. *)
Lemma rendering_tail (tv : Z) :
  let lt := Date.LocalTime host tv in
  matches "/MM/DD HH:mm"
    ("/" ++ two (Date.MonthFromTime lt + 1) ++ "/"
     ++ two (Date.DateFromTime lt) ++ " "
     ++ two (Date.HourFromTime lt) ++ ":"
     ++ two (Date.MinFromTime lt)) = true.
Proof.
  intros lt.
  pose proof (DateFacts.MonthFromTime_range lt).
  pose proof (DateFacts.DateFromTime_range lt).
  pose proof (DateFacts.HourFromTime_range lt).
  pose proof (DateFacts.MinFromTime_range lt).
  assert (D : forall n, 0 <= n <= 99 -> matches "DD" (two n) = true)
    by (intros n Hn; apply padStart_two, Hn).
  apply (matches_app "/" "MM/DD HH:mm"); [reflexivity|].
  apply (matches_app "MM" "/DD HH:mm"); [apply D; lia|].
  apply (matches_app "/" "DD HH:mm"); [reflexivity|].
  apply (matches_app "DD" " HH:mm"); [apply D; lia|].
  apply (matches_app " " "HH:mm"); [reflexivity|].
  apply (matches_app "HH" ":mm"); [apply D; lia|].
  apply (matches_app ":" "mm"); [reflexivity|].
  apply D; lia.
Qed.

Lemma rendering_matches (tv : Z) :
  1000 <= Date.YearFromTime (Date.LocalTime host tv) <= 9999 ->
  matches date_pattern (rendering host tv) = true.
Proof.
  intros Hy. unfold rendering.
  apply (matches_app "YYYY" "/MM/DD HH:mm").
  - now apply toString_four_digits.
  - apply rendering_tail.
Qed.

(** An invalid date gives [NaN] in every field. *)
Lemma formatDate_NaN (s : string) :
  s <> "" -> Date.new host s = None ->
  formatDate host s = "NaN/NaN/NaN NaN:NaN".
Proof.
  intros Hs Hd. destruct s as [|c r]; [congruence|].
  unfold formatDate. rewrite Hd. reflexivity.
Qed.

End FormatDateFacts.

(** The string that is not a date for the ISO host. *)
Lemma IsoHost_not_a_date (offset : Z) :
  Date.new (IsoHost.host offset) "not a date" = None.
Proof. reflexivity. Qed.

(** C3, as stated, fails: an input that does not parse to a valid date is
    not formatted as the empty string. *)
Lemma formatDate_invalid_not_empty :
  Date.new (IsoHost.host 0) "not a date" = None /\
  formatDate (IsoHost.host 0) "not a date" <> "".
Proof. split; [reflexivity | discriminate]. Qed.

(** C3, amended. For an input that is empty or does not parse to a valid
    date, [formatDate] returns (it is a total function: nothing in it
    throws) the empty string when the input is empty and the string
    ["NaN/NaN/NaN NaN:NaN"] otherwise. *)
Theorem formatDate_empty_or_invalid (host : Date.Host) (s : string) :
  s = "" \/ Date.new host s = None ->
  formatDate host s =
    match s with
    | EmptyString => ""
    | _ => "NaN/NaN/NaN NaN:NaN"
    end.
Proof.
  intros [-> | Hd]; [reflexivity|].
  destruct s as [|c r]; [reflexivity|].
  now apply formatDate_NaN.
Qed.

Lemma formatDate_empty_or_invalid_witness :
  formatDate (IsoHost.host 0) "not a date" = "NaN/NaN/NaN NaN:NaN".
Proof.
  apply (formatDate_empty_or_invalid (IsoHost.host 0) "not a date").
  right. reflexivity.
Defined.

(** C9. For a non-empty input that does not parse to a valid date, every
    field is rendered as [NaN], which the padding to width 2 leaves as it
    is, and [formatDate] returns ["NaN/NaN/NaN NaN:NaN"]. *)
Theorem formatDate_invalid_sentinel (host : Date.Host) (s : string) :
  s <> "" -> Date.new host s = None ->
  let date := Date.new host s in
  Num.toString (Date.getFullYear host date) = "NaN"
  /\ Num.padStart (Num.toString (Num.add (Date.getMonth host date) (JS.Num 1))) 2 "0" = "NaN"
  /\ Num.padStart (Num.toString (Date.getDate host date)) 2 "0" = "NaN"
  /\ Num.padStart (Num.toString (Date.getHours host date)) 2 "0" = "NaN"
  /\ Num.padStart (Num.toString (Date.getMinutes host date)) 2 "0" = "NaN"
  /\ formatDate host s = "NaN/NaN/NaN NaN:NaN".
Proof.
  intros Hs Hd date. subst date. rewrite Hd.
  repeat (split; [reflexivity|]).
  now apply formatDate_NaN.
Qed.

Lemma formatDate_invalid_sentinel_witness :
  formatDate (IsoHost.host 0) "2023-13-01" = "NaN/NaN/NaN NaN:NaN".
Proof.
  apply (formatDate_invalid_sentinel (IsoHost.host 0) "2023-13-01");
    [discriminate | reflexivity].
Defined.

(** The ISO host reads a local date-time back as it was written. *)
Lemma IsoHost_local_time (offset : Z) (s : string) (lt : Z) :
  Z.abs offset <= Date.msPerDay ->
  Z.abs lt <= 8000000000000000 ->
  IsoHost.fields s = Some (lt, IsoHost.Local) ->
  exists tv, Date.new (IsoHost.host offset) s = Some tv
             /\ Date.LocalTime (IsoHost.host offset) tv = lt.
Proof.
  intros Ho Hl Hf. exists (lt - offset).
  unfold Date.new, Date.LocalTime, IsoHost.host, IsoHost.parse, Date.TimeClip.
  cbn [Date.parse Date.LocalTZA]. rewrite Hf.
  unfold Date.msPerDay in Ho.
  destruct (Z.leb_spec (Z.abs (lt - offset)) 8640000000000000); [|lia].
  split; [reflexivity | lia].
Qed.

(** C8, as stated, fails: a valid date of the year 99 is formatted with a
    year of two digits. *)
Lemma formatDate_year_not_padded :
  Date.new (IsoHost.host 0) "0099-01-05T09:03:00" = Some (-59042617020000)
  /\ formatDate (IsoHost.host 0) "0099-01-05T09:03:00" = "99/01/05 09:03"
  /\ matches date_pattern (formatDate (IsoHost.host 0) "0099-01-05T09:03:00") = false.
Proof. repeat split; vm_compute; reflexivity. Qed.

(** C8, amended. For a non-empty input that parses to a valid date,
    [formatDate] returns the year in decimal without padding, then month,
    day, hour and minute of local time, each with two digits:
    [<year>/MM/DD HH:mm]; the year has four digits, and the whole string
    follows [YYYY/MM/DD HH:mm], when it lies between 1000 and 9999.  In
    particular ["2023-01-05T09:03:00"] is formatted as
    ["2023/01/05 09:03"] on a host that reads the ISO format and keeps local
    time at a fixed offset. *)
Theorem formatDate_valid :
  (forall (host : Date.Host) (s : string) (tv : Z),
      s <> "" -> Date.new host s = Some tv ->
      let lt := Date.LocalTime host tv in
      formatDate host s =
        Num.toString (JS.Num (Date.YearFromTime lt)) ++ "/"
        ++ two (Date.MonthFromTime lt + 1) ++ "/"
        ++ two (Date.DateFromTime lt) ++ " "
        ++ two (Date.HourFromTime lt) ++ ":"
        ++ two (Date.MinFromTime lt)
      /\ 1 <= Date.MonthFromTime lt + 1 <= 12
      /\ 1 <= Date.DateFromTime lt <= 31
      /\ 0 <= Date.HourFromTime lt <= 23
      /\ 0 <= Date.MinFromTime lt <= 59
      /\ (1000 <= Date.YearFromTime lt <= 9999 ->
          matches date_pattern (formatDate host s) = true))
  /\ (forall offset : Z,
         Z.abs offset <= Date.msPerDay ->
         formatDate (IsoHost.host offset) "2023-01-05T09:03:00"
         = "2023/01/05 09:03").
Proof.
  split.
  - intros host s tv Hs Hd lt.
    pose proof (DateFacts.MonthFromTime_range lt).
    pose proof (DateFacts.DateFromTime_range lt).
    pose proof (DateFacts.HourFromTime_range lt).
    pose proof (DateFacts.MinFromTime_range lt).
    rewrite (formatDate_rendering host s tv Hs Hd).
    repeat (split; [reflexivity || lia|]).
    apply rendering_matches.
  - intros offset Ho.
    destruct (IsoHost_local_time offset "2023-01-05T09:03:00" 1672909380000 Ho)
      as (tv & Hd & Hl); [lia | reflexivity |].
    rewrite (formatDate_rendering (IsoHost.host offset) "2023-01-05T09:03:00" tv)
      by (discriminate || exact Hd).
    unfold rendering. rewrite Hl. reflexivity.
Qed.

Lemma formatDate_valid_witness :
  formatDate (IsoHost.host 28800000) "2023-01-05T09:03:00" = "2023/01/05 09:03"
  /\ matches date_pattern (formatDate (IsoHost.host 0) "2024-02-29T23:59:59.999Z") = true.
Proof.
  split.
  - apply (proj2 formatDate_valid 28800000). unfold Date.msPerDay. lia.
  - apply (proj1 formatDate_valid (IsoHost.host 0) "2024-02-29T23:59:59.999Z"
             1709251199999); [discriminate | reflexivity | vm_compute; split; discriminate].
Defined.

(** * Binary conversions: proofs *)

(** ** Bytes, code units and bits *)

Lemma Z_of_byte_range (b : byte) : 0 <= Z_of_byte b < 256.
Proof. unfold Z_of_byte. pose proof (Byte.to_N_bounded b). lia. Qed.

Lemma byte_of_Z_of_byte (b : byte) : byte_of_Z (Z_of_byte b) = b.
Proof.
  unfold byte_of_Z. pose proof (Z_of_byte_range b) as R.
  rewrite Z.mod_small by exact R.
  unfold Z_of_byte. now rewrite N2Z.id, Byte.of_to_N.
Qed.

Lemma code_range (c : ascii) : 0 <= JS.code c < 256.
Proof. unfold JS.code. pose proof (N_ascii_bounded c). lia. Qed.

Lemma chr_code (c : ascii) : JS.chr (JS.code c) = c.
Proof. unfold JS.chr, JS.code. now rewrite N2Z.id, ascii_N_embedding. Qed.

Lemma code_chr (z : Z) : 0 <= z < 256 -> JS.code (JS.chr z) = z.
Proof.
  intros H. unfold JS.chr, JS.code.
  rewrite N_ascii_embedding by lia. lia.
Qed.

Lemma chr_Z_of_byte (b : byte) : JS.chr (Z_of_byte b) = ascii_of_byte b.
Proof.
  unfold JS.chr, Z_of_byte. rewrite N2Z.id.
  now destruct b.
Qed.

Lemma byte_of_Z_code (c : ascii) : byte_of_Z (JS.code c) = byte_of_ascii c.
Proof.
  rewrite <- (ascii_of_byte_of_ascii c) at 1.
  rewrite <- chr_Z_of_byte, code_chr by apply Z_of_byte_range.
  apply byte_of_Z_of_byte.
Qed.

(** A number below [2 ^ k] fills the [k] low bits that a multiple of
    [2 ^ k] leaves empty. *)
Lemma lor_low (x b k : Z) :
  0 <= k -> x mod 2 ^ k = 0 -> 0 <= b < 2 ^ k -> Z.lor x b = x + b.
Proof.
  intros Hk Hx Hb.
  rewrite <- Z.add_lor_land.
  enough (E : Z.land x b = 0) by (rewrite E; lia).
  rewrite (Z.div_mod x (2 ^ k)) by lia. rewrite Hx, Z.add_0_r, Z.mul_comm.
  apply Z.bits_inj'. intros i Hi.
  rewrite Z.land_spec, Z.bits_0.
  destruct (Z.lt_ge_cases i k) as [L|G].
  - now rewrite Z.mul_pow2_bits_low.
  - assert (T : Z.testbit b i = false).
    { destruct (Z.eq_dec b 0) as [->|Nz]; [apply Z.bits_0|].
      apply Z.bits_above_log2; [apply Hb|].
      apply Z.log2_lt_pow2; [destruct Hb; lia|].
      apply Z.lt_le_trans with (2 ^ k); [apply Hb|].
      apply Z.pow_le_mono_r; lia. }
    now rewrite T, andb_false_r.
Qed.

Lemma shiftl_lor_small (a b k : Z) :
  0 <= k -> 0 <= b < 2 ^ k -> Z.lor (Z.shiftl a k) b = a * 2 ^ k + b.
Proof.
  intros Hk Hb. rewrite Z.shiftl_mul_pow2 by exact Hk.
  apply (lor_low _ _ k); [exact Hk | | exact Hb].
  apply Z.mod_mul. lia.
Qed.

(** Bit operations on the buffers, as arithmetic. *)
Ltac bits_to_arith :=
  repeat first
    [ rewrite Z.shiftr_div_pow2 by lia
    | rewrite Z.shiftl_mul_pow2 by lia
    | rewrite (Z.land_ones _ 6 ltac:(lia) : Z.land _ 63 = _)
    | rewrite (Z.land_ones _ 8 ltac:(lia) : Z.land _ 255 = _) ];
  change (2 ^ 2) with 4 in *; change (2 ^ 4) with 16 in *;
  change (2 ^ 6) with 64 in *; change (2 ^ 8) with 256 in *;
  change (2 ^ 10) with 1024 in *; change (2 ^ 12) with 4096 in *;
  change (2 ^ 16) with 65536 in *; change (2 ^ 18) with 262144 in *.

(** ** The copying loop of [base64ToArrayBuffer] *)

Lemma update_length (l : list byte) (i : nat) (b : byte) :
  List.length (Uint8Array.update l i b) = List.length l.
Proof.
  revert i. induction l as [|x l IH]; intros [|i]; simpl; auto.
Qed.

Lemma nth_error_update (l : list byte) (i k : nat) (b : byte) :
  nth_error (Uint8Array.update l i b) k =
    if Nat.eqb k i then option_map (fun _ => b) (nth_error l k)
    else nth_error l k.
Proof.
  revert i k. induction l as [|x l IH]; intros [|i] [|k]; simpl; auto.
  - now destruct (Nat.eqb k i).
Qed.

Lemma get_length (s : string) (k : nat) :
  String.get k s = None <-> (String.length s <= k)%nat.
Proof.
  revert k. induction s as [|c s IH]; intros [|k]; simpl.
  - split; [lia | reflexivity].
  - split; [lia | reflexivity].
  - split; [discriminate | lia].
  - rewrite IH. lia.
Qed.

Lemma nth_error_list_byte_of_string (s : string) (k : nat) :
  nth_error (list_byte_of_string s) k
  = option_map byte_of_ascii (String.get k s).
Proof.
  unfold list_byte_of_string. rewrite nth_error_map. f_equal.
  revert k. induction s as [|c s IH]; intros [|k]; simpl; auto.
Qed.

Lemma charCodeAt_get (s : string) (i : nat) :
  Uint8Array.ToUint8 (charCodeAt s (Z.of_nat i))
  = match String.get i s with
    | Some c => byte_of_ascii c
    | None => x00
    end.
Proof.
  unfold charCodeAt.
  destruct (Z.ltb_spec (Z.of_nat i) 0); [lia|].
  rewrite Nat2Z.id. destruct (String.get i s); simpl; [|reflexivity].
  apply byte_of_Z_code.
Qed.

Lemma fill_length (s : string) (r : nat) (i : Z) (bytes : list byte) :
  List.length (fill r i s bytes) = List.length bytes.
Proof.
  revert i bytes. induction r as [|r IH]; intros i bytes; simpl; [reflexivity|].
  rewrite IH. unfold Uint8Array.set.
  destruct (i <? 0); [reflexivity | apply update_length].
Qed.

(** After [r] iterations from index [i] the positions [i] to [i + r - 1]
    hold the code units of the string and the others are untouched. *)
Lemma nth_error_fill (s : string) (r i : nat) (bytes : list byte) (k : nat) :
  List.length bytes = String.length s ->
  nth_error (fill r (Z.of_nat i) s bytes) k =
    if (i <=? k)%nat && (k <? i + r)%nat
    then option_map byte_of_ascii (String.get k s)
    else nth_error bytes k.
Proof.
  revert i bytes. induction r as [|r IH]; intros i bytes Hl.
  - simpl. destruct (Nat.leb_spec i k), (Nat.ltb_spec k (i + 0)); simpl;
      try reflexivity; lia.
  - cbn [fill]. replace (Z.of_nat i + 1) with (Z.of_nat (S i)) by lia.
    rewrite IH.
    2:{ unfold Uint8Array.set. destruct (Z.of_nat i <? 0); [exact Hl|].
        now rewrite update_length. }
    unfold Uint8Array.set.
    destruct (Z.ltb_spec (Z.of_nat i) 0); [lia|].
    rewrite Nat2Z.id, nth_error_update, charCodeAt_get.
    destruct (Nat.leb_spec (S i) k), (Nat.ltb_spec k (S i + r)),
      (Nat.leb_spec i k), (Nat.ltb_spec k (i + S r)), (Nat.eqb_spec k i);
      simpl; try reflexivity; try lia.
    subst k.
    destruct (String.get i s) as [c|] eqn:G.
    + destruct (nth_error bytes i) eqn:N; [reflexivity|].
      apply nth_error_None in N.
      assert (String.get i s <> None) by congruence.
      rewrite get_length in *. lia.
    + destruct (nth_error bytes i) eqn:N; [|reflexivity].
      apply get_length in G.
      assert (nth_error bytes i <> None) by congruence.
      rewrite nth_error_None in *. lia.
Qed.

(** The loop copies the whole binary string, byte for byte. *)
Lemma fill_all (s : string) :
  fill (Z.to_nat (JS.length s)) 0 s (Uint8Array.new (JS.length s))
  = list_byte_of_string s.
Proof.
  unfold Uint8Array.new, JS.length. rewrite Nat2Z.id.
  apply nth_error_ext. intros k.
  rewrite (nth_error_fill s (String.length s) 0) by apply repeat_length.
  rewrite nth_error_list_byte_of_string.
  destruct (Nat.ltb_spec k (0 + String.length s)) as [L|G]; simpl;
    [reflexivity|].
  assert (E : String.get k s = None) by (apply get_length; lia).
  rewrite E. apply nth_error_None. rewrite repeat_length. lia.
Qed.

Lemma length_list_byte_of_string (s : string) :
  Z.of_nat (List.length (list_byte_of_string s)) = JS.length s.
Proof.
  unfold list_byte_of_string, JS.length. rewrite length_map. f_equal.
  induction s as [|c s IH]; simpl; congruence.
Qed.

Lemma base64ToArrayBuffer_of_atob (base64 binaryString : string) :
  Base64.atob base64 = Ok binaryString ->
  base64ToArrayBuffer base64 = Ok (list_byte_of_string binaryString).
Proof.
  intros H. unfold base64ToArrayBuffer. rewrite H. cbn [bind].
  now rewrite fill_all.
Qed.

Lemma base64ToArrayBuffer_throw (base64 : string) (e : exn) :
  Base64.atob base64 = Throw e -> base64ToArrayBuffer base64 = Throw e.
Proof. intros H. unfold base64ToArrayBuffer. now rewrite H. Qed.

(** ** [atob] *)

Lemma forgiving_decode_payload (data : string) :
  Base64.forgiving_decode data =
    if JS.length (payload data) mod 4 =? 1 then None
    else option_map (fun vs => Base64.drain vs 0 0) (Base64.sextets (payload data)).
Proof.
  unfold Base64.forgiving_decode, payload.
  destruct (_ mod 4 =? 1); [reflexivity|].
  now destruct (Base64.sextets _).
Qed.

Lemma sextets_length (s : string) (vs : list Z) :
  Base64.sextets s = Some vs -> Z.of_nat (List.length vs) = JS.length s.
Proof.
  unfold JS.length. revert vs.
  induction s as [|c s IH]; simpl; intros vs H.
  - now injection H as <-.
  - destruct (Base64.sextet c); [|discriminate].
    destruct (Base64.sextets s) as [ws|]; [|discriminate].
    injection H as <-. specialize (IH ws eq_refl). simpl. lia.
Qed.

(** With [k] digits already in the buffer, every four digits give three
    bytes and the last two or three give one or two. *)
Lemma drain_length (vs : list Z) :
  forall buffer k, 0 <= k <= 3 ->
    JS.length (Base64.drain vs buffer (6 * k))
    = 3 * ((k + Z.of_nat (List.length vs)) / 4)
      + tail_bytes ((k + Z.of_nat (List.length vs)) mod 4).
Proof.
  unfold JS.length.
  induction vs as [|v vs IH]; intros buffer k Hk.
  - assert (C : k = 0 \/ k = 1 \/ k = 2 \/ k = 3) by lia.
    destruct C as [-> | [-> | [-> | ->]]]; reflexivity.
  - cbn [Base64.drain List.length].
    assert (C : k = 0 \/ k = 1 \/ k = 2 \/ k = 3) by lia.
    destruct C as [-> | [-> | [-> | ->]]].
    + change (6 * 0 + 6 =? 24) with false. cbv iota.
      change (6 * 0 + 6) with (6 * 1). rewrite IH by lia.
      now replace (0 + Z.of_nat (S (List.length vs)))
        with (1 + Z.of_nat (List.length vs)) by lia.
    + change (6 * 1 + 6 =? 24) with false. cbv iota.
      change (6 * 1 + 6) with (6 * 2). rewrite IH by lia.
      now replace (1 + Z.of_nat (S (List.length vs)))
        with (2 + Z.of_nat (List.length vs)) by lia.
    + change (6 * 2 + 6 =? 24) with false. cbv iota.
      change (6 * 2 + 6) with (6 * 3). rewrite IH by lia.
      now replace (2 + Z.of_nat (S (List.length vs)))
        with (3 + Z.of_nat (List.length vs)) by lia.
    + change (6 * 3 + 6 =? 24) with true. cbv iota.
      cbn [String.length]. change 0 with (6 * 0) at 2.
      rewrite !Nat2Z.inj_succ, IH by lia.
      replace (3 + Z.succ (Z.of_nat (List.length vs)))
        with (0 + Z.of_nat (List.length vs) + 1 * 4) by lia.
      rewrite Z.div_add, Z.mod_add by lia. lia.
Qed.

(** The length of what [atob] returns, from the number of digits. *)
Lemma atob_length (data binaryString : string) :
  Base64.atob data = Ok binaryString ->
  JS.length binaryString = 3 * JS.length (payload data) / 4.
Proof.
  unfold Base64.atob. rewrite forgiving_decode_payload.
  destruct (Z.eqb_spec (JS.length (payload data) mod 4) 1) as [|N];
    [discriminate|].
  destruct (Base64.sextets (payload data)) as [vs|] eqn:E; [|discriminate].
  intros [= <-]. apply sextets_length in E. rewrite <- E in *.
  change (Base64.drain vs 0 0) with (Base64.drain vs 0 (6 * 0)).
  rewrite drain_length by lia. rewrite Z.add_0_l.
  set (n := Z.of_nat (List.length vs)) in *.
  assert (0 <= n) by (subst n; lia).
  unfold tail_bytes.
  destruct (Z.eqb_spec (n mod 4) 2), (Z.eqb_spec (n mod 4) 3);
    Z.to_euclidean_division_equations; lia.
Qed.

(** ** The round trip through the reference encoder *)

Lemma list_ind3 {A : Type} (P : list A -> Prop) :
  P [] -> (forall a, P [a]) -> (forall a b, P [a; b]) ->
  (forall a b c l, P l -> P (a :: b :: c :: l)) ->
  forall l, P l.
Proof.
  intros H0 H1 H2 H3 l.
  enough (P l /\ (forall a, P (a :: l)) /\ (forall a b, P (a :: b :: l)))
    by tauto.
  induction l as [|x l (IH0 & IH1 & IH2)]; auto.
Qed.

(** The digit of a value is read back as that value; it is neither
    whitespace nor padding. *)
Lemma digit64_sound (v : Z) :
  0 <= v < 64 ->
  Base64.sextet (Base64.digit64 v) = Some v
  /\ Base64.is_whitespace (Base64.digit64 v) = false
  /\ Ascii.eqb (Base64.digit64 v) "=" = false.
Proof.
  intros H.
  pose (P := fun v =>
    (match Base64.sextet (Base64.digit64 v) with
     | Some w => w =? v
     | None => false
     end
     && negb (Base64.is_whitespace (Base64.digit64 v))
     && negb (Ascii.eqb (Base64.digit64 v) "="))%bool).
  assert (C : P v = true)
    by (apply (range_check P 0 64); [vm_compute; reflexivity | lia]).
  unfold P in C. rewrite !andb_true_iff, !negb_true_iff in C.
  destruct C as [[C1 C2] C3].
  destruct (Base64.sextet (Base64.digit64 v)) as [w|]; [|discriminate].
  apply Z.eqb_eq in C1. now subst w.
Qed.

Lemma strip_padding_cons (c : ascii) (r : string) :
  Ascii.eqb c "=" = false ->
  Base64.strip_padding (String c r) = String c (Base64.strip_padding r).
Proof.
  destruct c as [[] [] [] [] [] [] [] []]; intros H;
    try discriminate H; reflexivity.
Qed.

(** The digits of a group of 24 bits, and the buffers they rebuild. *)
Lemma group_digits (n : Z) :
  0 <= n < 16777216 ->
  let v0 := Z.shiftr n 18 in
  let v1 := Z.land (Z.shiftr n 12) 63 in
  let v2 := Z.land (Z.shiftr n 6) 63 in
  let v3 := Z.land n 63 in
  (0 <= v0 < 64 /\ 0 <= v1 < 64 /\ 0 <= v2 < 64 /\ 0 <= v3 < 64)
  /\ Z.lor (Z.shiftl (Z.lor (Z.shiftl 0 6) v0) 6) v1 = n / 4096
  /\ Z.lor (Z.shiftl (Z.lor (Z.shiftl (Z.lor (Z.shiftl 0 6) v0) 6) v1) 6) v2
     = n / 64
  /\ Z.lor (Z.shiftl (Z.lor (Z.shiftl (Z.lor (Z.shiftl
       (Z.lor (Z.shiftl 0 6) v0) 6) v1) 6) v2) 6) v3 = n.
Proof.
  intros Hn v0 v1 v2 v3.
  assert (R : 0 <= v0 < 64 /\ 0 <= v1 < 64 /\ 0 <= v2 < 64 /\ 0 <= v3 < 64).
  { subst v0 v1 v2 v3. bits_to_arith.
    Z.to_euclidean_division_equations; lia. }
  split; [exact R|].
  change (Z.shiftl 0 6) with 0. rewrite Z.lor_0_l.
  rewrite !shiftl_lor_small by (change (2 ^ 6) with 64; lia).
  subst v0 v1 v2 v3. bits_to_arith.
  Z.to_euclidean_division_equations; lia.
Qed.

Lemma drain_four (v0 v1 v2 v3 : Z) (vs : list Z) :
  Base64.drain (v0 :: v1 :: v2 :: v3 :: vs) 0 0 =
    let buffer :=
      Z.lor (Z.shiftl (Z.lor (Z.shiftl (Z.lor (Z.shiftl
        (Z.lor (Z.shiftl 0 6) v0) 6) v1) 6) v2) 6) v3 in
    String (JS.chr (Z.shiftr buffer 16))
      (String (JS.chr (Z.land (Z.shiftr buffer 8) 255))
         (String (JS.chr (Z.land buffer 255)) (Base64.drain vs 0 0))).
Proof. reflexivity. Qed.

Lemma drain_three (v0 v1 v2 : Z) :
  Base64.drain [v0; v1; v2] 0 0 =
    let buffer :=
      Z.lor (Z.shiftl (Z.lor (Z.shiftl (Z.lor (Z.shiftl 0 6) v0) 6) v1) 6) v2 in
    String (JS.chr (Z.shiftr buffer 10))
      (String (JS.chr (Z.land (Z.shiftr buffer 2) 255)) EmptyString).
Proof. reflexivity. Qed.

Lemma drain_two (v0 v1 : Z) :
  Base64.drain [v0; v1] 0 0 =
    let buffer := Z.lor (Z.shiftl (Z.lor (Z.shiftl 0 6) v0) 6) v1 in
    String (JS.chr (Z.shiftr buffer 4)) EmptyString.
Proof. reflexivity. Qed.

(** What the encoder writes for a group, and what the buffer of the
    decoder makes of it. *)
Lemma encode_three (b0 b1 b2 : byte) (rest : list byte) :
  exists v0 v1 v2 v3,
    (in_alphabet v0 /\ in_alphabet v1 /\ in_alphabet v2 /\ in_alphabet v3)
    /\ Base64.encodeBase64 (b0 :: b1 :: b2 :: rest)
       = String (Base64.digit64 v0) (String (Base64.digit64 v1)
           (String (Base64.digit64 v2) (String (Base64.digit64 v3)
              (Base64.encodeBase64 rest))))
    /\ forall vs,
         Base64.drain (v0 :: v1 :: v2 :: v3 :: vs) 0 0
         = String (ascii_of_byte b0) (String (ascii_of_byte b1)
             (String (ascii_of_byte b2) (Base64.drain vs 0 0))).
Proof.
  pose proof (Z_of_byte_range b0) as R0.
  pose proof (Z_of_byte_range b1) as R1.
  pose proof (Z_of_byte_range b2) as R2.
  set (n := Z.lor (Z.lor (Z.shiftl (Z_of_byte b0) 16)
                         (Z.shiftl (Z_of_byte b1) 8)) (Z_of_byte b2)).
  assert (En : n = Z_of_byte b0 * 65536 + Z_of_byte b1 * 256 + Z_of_byte b2).
  { subst n.
    rewrite (shiftl_lor_small _ _ 16)
      by (bits_to_arith; lia).
    rewrite (lor_low _ _ 8); bits_to_arith;
      Z.to_euclidean_division_equations; lia. }
  destruct (group_digits n ltac:(lia)) as (R & _ & _ & B).
  exists (Z.shiftr n 18), (Z.land (Z.shiftr n 12) 63),
    (Z.land (Z.shiftr n 6) 63), (Z.land n 63).
  split; [exact R|]. split; [reflexivity|].
  intros vs. rewrite drain_four. cbv zeta. rewrite B.
  rewrite <- !chr_Z_of_byte. bits_to_arith.
  repeat f_equal; rewrite En; Z.to_euclidean_division_equations; lia.
Qed.

Lemma encode_two (b0 b1 : byte) :
  exists v0 v1 v2,
    (in_alphabet v0 /\ in_alphabet v1 /\ in_alphabet v2)
    /\ Base64.encodeBase64 [b0; b1]
       = String (Base64.digit64 v0) (String (Base64.digit64 v1)
           (String (Base64.digit64 v2) "="))
    /\ Base64.drain [v0; v1; v2] 0 0
       = String (ascii_of_byte b0) (String (ascii_of_byte b1) EmptyString).
Proof.
  pose proof (Z_of_byte_range b0) as R0.
  pose proof (Z_of_byte_range b1) as R1.
  set (n := Z.lor (Z.shiftl (Z_of_byte b0) 16) (Z.shiftl (Z_of_byte b1) 8)).
  assert (En : n = Z_of_byte b0 * 65536 + Z_of_byte b1 * 256).
  { subst n.
    rewrite (shiftl_lor_small _ _ 16) by (bits_to_arith; lia).
    bits_to_arith. reflexivity. }
  destruct (group_digits n ltac:(lia)) as (R & _ & B & _).
  exists (Z.shiftr n 18), (Z.land (Z.shiftr n 12) 63),
    (Z.land (Z.shiftr n 6) 63).
  split; [unfold in_alphabet; tauto|]. split; [reflexivity|].
  rewrite drain_three. cbv zeta. rewrite B.
  rewrite <- !chr_Z_of_byte. bits_to_arith.
  repeat f_equal; rewrite En; Z.to_euclidean_division_equations; lia.
Qed.

Lemma encode_one (b0 : byte) :
  exists v0 v1,
    (in_alphabet v0 /\ in_alphabet v1)
    /\ Base64.encodeBase64 [b0]
       = String (Base64.digit64 v0) (String (Base64.digit64 v1) "==")
    /\ Base64.drain [v0; v1] 0 0 = String (ascii_of_byte b0) EmptyString.
Proof.
  pose proof (Z_of_byte_range b0) as R0.
  set (n := Z.shiftl (Z_of_byte b0) 16).
  assert (En : n = Z_of_byte b0 * 65536) by (subst n; now bits_to_arith).
  destruct (group_digits n ltac:(lia)) as (R & B & _ & _).
  exists (Z.shiftr n 18), (Z.land (Z.shiftr n 12) 63).
  split; [unfold in_alphabet; tauto|]. split; [reflexivity|].
  rewrite drain_two. cbv zeta. rewrite B.
  rewrite <- !chr_Z_of_byte. bits_to_arith.
  repeat f_equal; rewrite En; Z.to_euclidean_division_equations; lia.
Qed.

Lemma remove_whitespace_cons (c : ascii) (r : string) :
  Base64.is_whitespace c = false ->
  Base64.remove_whitespace (String c r) = String c (Base64.remove_whitespace r).
Proof. intros H. simpl. now rewrite H. Qed.

Lemma sextets_cons (c : ascii) (r : string) (v : Z) (vs : list Z) :
  Base64.sextet c = Some v -> Base64.sextets r = Some vs ->
  Base64.sextets (String c r) = Some (v :: vs).
Proof. intros Hc Hr. simpl. now rewrite Hc, Hr. Qed.

Lemma length_cons (c : ascii) (r : string) :
  JS.length (String c r) = 1 + JS.length r.
Proof. unfold JS.length. cbn [String.length]. lia. Qed.

(** A digit of the alphabet goes through the first steps of [atob]
    unchanged. *)
Ltac digit_facts R :=
  let S := fresh "S" in
  let W := fresh "W" in
  let Q := fresh "Q" in
  destruct (digit64_sound _ R) as (S & W & Q).

(** How [atob] reads an encoding: nothing is whitespace, the length is a
    multiple of four, and past the padding the digits drain to the bytes. *)
Lemma encodeBase64_decodes (b : list byte) :
  Base64.remove_whitespace (Base64.encodeBase64 b) = Base64.encodeBase64 b
  /\ JS.length (Base64.encodeBase64 b) mod 4 = 0
  /\ JS.length (Base64.strip_padding (Base64.encodeBase64 b)) mod 4 <> 1
  /\ exists vs,
       Base64.sextets (Base64.strip_padding (Base64.encodeBase64 b)) = Some vs
       /\ Base64.drain vs 0 0 = string_of_list_byte b.
Proof.
  induction b as [|b0|b0 b1|b0 b1 b2 rest IH] using list_ind3.
  - repeat split; try discriminate. now exists [].
  - destruct (encode_one b0) as (v0 & v1 & (R0 & R1) & -> & D).
    digit_facts R0. digit_facts R1.
    rewrite !remove_whitespace_cons, !strip_padding_cons by assumption.
    repeat split; try discriminate.
    exists [v0; v1]. split; [|exact D].
    now repeat apply sextets_cons.
  - destruct (encode_two b0 b1) as (v0 & v1 & v2 & (R0 & R1 & R2) & -> & D).
    digit_facts R0. digit_facts R1. digit_facts R2.
    rewrite !remove_whitespace_cons, !strip_padding_cons by assumption.
    repeat split; try discriminate.
    exists [v0; v1; v2]. split; [|exact D].
    now repeat apply sextets_cons.
  - destruct IH as (IHw & IHl & IHs & vs & IHv & IHd).
    destruct (encode_three b0 b1 b2 rest)
      as (v0 & v1 & v2 & v3 & (R0 & R1 & R2 & R3) & -> & D).
    digit_facts R0. digit_facts R1. digit_facts R2. digit_facts R3.
    rewrite !remove_whitespace_cons, !strip_padding_cons by assumption.
    rewrite IHw, !length_cons.
    split; [reflexivity|].
    split; [revert IHl; Z.to_euclidean_division_equations; lia|].
    split; [revert IHs; Z.to_euclidean_division_equations; lia|].
    exists (v0 :: v1 :: v2 :: v3 :: vs). split.
    + now repeat apply sextets_cons.
    + now rewrite D, IHd.
Qed.

Lemma atob_encodeBase64 (b : list byte) :
  Base64.atob (Base64.encodeBase64 b) = Ok (string_of_list_byte b).
Proof.
  destruct (encodeBase64_decodes b) as (Hw & Hl & Hs & vs & Hv & Hd).
  unfold Base64.atob, Base64.forgiving_decode.
  rewrite Hw, Hl. cbn [Z.eqb].
  destruct (Z.eqb_spec
    (JS.length (Base64.strip_padding (Base64.encodeBase64 b)) mod 4) 1);
    [contradiction|].
  now rewrite Hv, Hd.
Qed.

(** C5. Decoding the reference base64 encoding of any byte sequence gives
    the byte sequence back. *)
Theorem base64ToArrayBuffer_encodeBase64 (b : list byte) :
  base64ToArrayBuffer (Base64.encodeBase64 b) = Ok b.
Proof.
  rewrite (base64ToArrayBuffer_of_atob _ _ (atob_encodeBase64 b)).
  now rewrite list_byte_of_string_of_list_byte.
Qed.

(** C6. When [atob] accepts the input, the buffer holds exactly the bytes
    of the decoded binary string, one for each code unit: its length is the
    decoded length, three quarters (rounded down) of the number of base64
    digits of the input. *)
Theorem base64ToArrayBuffer_length (base64 binaryString : string) :
  Base64.atob base64 = Ok binaryString ->
  exists buffer,
    base64ToArrayBuffer base64 = Ok buffer
    /\ buffer = list_byte_of_string binaryString
    /\ Z.of_nat (List.length buffer) = JS.length binaryString
    /\ JS.length binaryString = 3 * JS.length (payload base64) / 4.
Proof.
  intros H. exists (list_byte_of_string binaryString).
  split; [now apply base64ToArrayBuffer_of_atob|].
  split; [reflexivity|].
  split; [apply length_list_byte_of_string | now apply atob_length].
Qed.

Lemma base64ToArrayBuffer_length_witness :
  exists buffer,
    base64ToArrayBuffer "aGVs bG8=" = Ok buffer
    /\ buffer = list_byte_of_string "hello"
    /\ Z.of_nat (List.length buffer) = JS.length "hello"
    /\ JS.length "hello" = 3 * JS.length (payload "aGVs bG8=") / 4.
Proof. apply (base64ToArrayBuffer_length "aGVs bG8=" "hello"). reflexivity. Defined.

(** C7. When the host's decoder rejects the input, [base64ToArrayBuffer]
    returns no bytes: the [InvalidCharacterError] of [atob] goes to the
    caller as it is. *)
Theorem base64ToArrayBuffer_invalid (base64 : string) :
  Base64.forgiving_decode base64 = None ->
  Base64.atob base64 = Throw InvalidCharacterError
  /\ base64ToArrayBuffer base64 = Throw InvalidCharacterError
  /\ forall buffer, base64ToArrayBuffer base64 <> Ok buffer.
Proof.
  intros H.
  assert (A : Base64.atob base64 = Throw InvalidCharacterError)
    by (unfold Base64.atob; now rewrite H).
  split; [exact A|].
  rewrite (base64ToArrayBuffer_throw _ _ A).
  split; [reflexivity | discriminate].
Qed.

Lemma base64ToArrayBuffer_invalid_witness :
  base64ToArrayBuffer "not-valid-base64!@#" = Throw InvalidCharacterError.
Proof.
  apply (base64ToArrayBuffer_invalid "not-valid-base64!@#"). reflexivity.
Defined.

(** ** [base64ToFile] *)

Lemma utf8_unit_length (c : ascii) :
  Z.of_nat (List.length (Blob.utf8_unit c))
  = 1 + (if JS.code c <? 128 then 0 else 1).
Proof. unfold Blob.utf8_unit. now destruct (JS.code c <? 128). Qed.

(** The blob has one byte more than the string for every code unit from
    128 on. *)
Lemma blob_length (s : string) :
  Z.of_nat (List.length (Blob.of_string s)) = JS.length s + count_high s.
Proof.
  induction s as [|c s IH].
  - reflexivity.
  - cbn [Blob.of_string count_high].
    rewrite length_app, Nat2Z.inj_add, utf8_unit_length, IH, length_cons. lia.
Qed.

(** The file carries the given name, and the UTF-8 encoding of the decoded
    binary string. *)
Lemma base64ToFile_of_atob (base64 filename binaryString : string) :
  Base64.atob base64 = Ok binaryString ->
  exists file,
    base64ToFile base64 filename = Ok file
    /\ name file = filename
    /\ size file = JS.length binaryString + count_high binaryString.
Proof.
  intros H. unfold base64ToFile. rewrite H. cbn [bind].
  eexists. split; [reflexivity|]. split; [reflexivity|].
  unfold size, File_new. cbn [bytes]. apply blob_length.
Qed.

(** C2. The payload ["/w=="] decodes to the single byte 255, and
    [base64ToArrayBuffer] returns that byte; the file made of it by
    [base64ToFile] has two bytes, the UTF-8 encoding of the code unit 255. *)
Theorem base64ToFile_high_byte :
  Base64.atob "/w==" = Ok (String (JS.chr 255) EmptyString)
  /\ base64ToArrayBuffer "/w==" = Ok [xff]
  /\ base64ToFile "/w==" "a.bin"
     = Ok {| name := "a.bin"; bytes := [xc3; xbf]; type := "" |}
  /\ (forall file, base64ToFile "/w==" "a.bin" = Ok file -> size file = 2).
Proof.
  repeat split; try reflexivity.
  intros file [= <-]. reflexivity.
Qed.

(** * More on file-type classification *)

Lemma lower_unit_dot (c : ascii) :
  Ascii.eqb (JS.lower_unit c) "." = Ascii.eqb c ".".
Proof. destruct c as [[] [] [] [] [] [] [] []]; reflexivity. Qed.

Lemma lower_unit_idem (c : ascii) :
  JS.lower_unit (JS.lower_unit c) = JS.lower_unit c.
Proof. destruct c as [[] [] [] [] [] [] [] []]; reflexivity. Qed.

Lemma toLowerCase_idem (s : string) :
  JS.toLowerCase (JS.toLowerCase s) = JS.toLowerCase s.
Proof.
  induction s as [|c s IH]; simpl; [reflexivity|].
  now rewrite lower_unit_idem, IH.
Qed.




(** [getFileType] looks at the extracted extension only. *)
Lemma getFileType_by_extension (a b : string) :
  extension_of a = extension_of b -> getFileType a = getFileType b.
Proof. intros H. unfold getFileType. now rewrite H. Qed.

(** The extension is already in lower case. *)
Lemma extension_of_lower (s ext : string) :
  extension_of s = Some ext -> JS.toLowerCase ext = ext.
Proof.
  unfold extension_of. destruct (JS.pop (JS.split "." s)); [|discriminate].
  intros [= <-]. apply toLowerCase_idem.
Qed.

(** The last segment holds no separator. *)
Lemma pop_split_free (sep : ascii) (s x : string) :
  JS.pop (JS.split sep s) = Some x -> free_of sep x = true.
Proof.
  revert x. induction s as [|c s IH]; simpl; intros x.
  - now intros [= <-].
  - destruct (Ascii.eqb c sep) eqn:E.
    + rewrite pop_cons by apply split_not_nil. apply IH.
    + destruct (JS.split sep s) as [|seg rest] eqn:Es;
        [now apply split_not_nil in Es|].
      destruct rest as [|y rest].
      * intros [= <-]. simpl. rewrite E. simpl. now apply IH.
      * apply IH.
Qed.

Lemma free_of_toLowerCase (s : string) :
  free_of "." (JS.toLowerCase s) = free_of "." s.
Proof.
  induction s as [|c s IH]; simpl; [reflexivity|].
  now rewrite lower_unit_dot, IH.
Qed.

Lemma extension_of_free (s ext : string) :
  extension_of s = Some ext -> free_of "." ext = true.
Proof.
  unfold extension_of.
  destruct (JS.pop (JS.split "." s)) as [x|] eqn:E; [|discriminate].
  intros [= <-]. rewrite free_of_toLowerCase. now apply pop_split_free in E.
Qed.

Lemma extension_of_some (s : string) : exists ext, extension_of s = Some ext.
Proof.
  unfold extension_of.
  destruct (JS.split "." s) as [|x l] eqn:E; [now apply split_not_nil in E|].
  clear E. revert x. induction l as [|y l IH]; intros x; [now eexists|].
  apply (IH y).
Qed.

(** A lower-case string names an inherited property only if it is
    [constructor] or [__proto__]: the other names have a capital. *)
Lemma inherited_lower (ext : string) (v : JS.value) :
  JS.toLowerCase ext = ext ->
  JS.inherited JS.Object_prototype ext = Some v ->
  (ext = "constructor" /\ v = JS.Builtin "Object")
  \/ (ext = "__proto__" /\ v = JS.Builtin "Object.prototype").
Proof.
  intros Hl. unfold JS.Object_prototype. cbn [JS.inherited].
  destruct (String.eqb_spec ext "constructor") as [->|_];
    [intros [= <-]; now left|].
  destruct (String.eqb_spec ext "__proto__") as [->|_];
    [intros [= <-]; now right|].
  repeat match goal with
    | |- context [String.eqb ext ?k] =>
        destruct (String.eqb_spec ext k) as [->|_]; [discriminate Hl|]
    end.
  discriminate.
Qed.



(** X2. What stands before the last dot of a name plays no part in its
    classification. *)
Theorem getFileType_last_segment (a a' b : string) :
  getFileType (a ++ String "." b) = getFileType (a' ++ String "." b).
Proof.
  apply getFileType_by_extension. unfold extension_of.
  now rewrite !pop_split_app.
Qed.

(** X3. [getFileType] never returns [undefined], and it returns a string
    unless the lower-cased last segment of the name is [constructor] or
    [__proto__]; then it returns the object inherited under that name. *)
Theorem getFileType_string_or_inherited (filename : string) :
  match getFileType filename with
  | JS.Str _ =>
      extension_of filename <> Some "constructor"
      /\ extension_of filename <> Some "__proto__"
  | JS.Builtin o =>
      (extension_of filename = Some "constructor" /\ o = "Object")
      \/ (extension_of filename = Some "__proto__" /\ o = "Object.prototype")
  | JS.Undefined => False
  end.
Proof.
  destruct (extension_of_some filename) as (ext & E).
  rewrite (getFileType_of_extension _ _ E), E.
  pose proof (extension_of_lower _ _ E) as Hl.
  destruct (JS.own fileExtensions ext) as [label|] eqn:Eo.
  - split; intros [= ->]; discriminate Eo.
  - destruct (JS.inherited JS.Object_prototype ext) as [v|] eqn:Ei.
    + destruct (inherited_lower _ _ Hl Ei) as [[-> ->]|[-> ->]];
        cbn [JS.ToBoolean]; [left | right]; now split.
    + split; intros [= ->]; discriminate Ei.
Qed.

(** X4. A string returned by [getFileType] is in lower case and holds no
    dot. *)
Theorem getFileType_normalized (filename t : string) :
  getFileType filename = JS.Str t ->
  JS.toLowerCase t = t /\ free_of "." t = true.
Proof.
  destruct (extension_of_some filename) as (ext & E).
  rewrite (getFileType_of_extension _ _ E).
  pose proof (extension_of_lower _ _ E) as Hl.
  pose proof (extension_of_free _ _ E) as Hf.
  destruct (JS.own fileExtensions ext) as [label|] eqn:Eo.
  - intros [= <-].
    revert Eo. unfold fileExtensions. cbn [JS.own].
    repeat (destruct (String.eqb ext _); [now intros [= <-]|]).
    discriminate.
  - destruct (JS.inherited JS.Object_prototype ext) as [v|] eqn:Ei.
    + destruct (inherited_lower _ _ Hl Ei) as [[-> ->]|[-> ->]]; discriminate.
    + intros [= <-]. now split.
Qed.

Lemma getFileType_normalized_witness :
  JS.toLowerCase "gz" = "gz" /\ free_of "." "gz" = true.
Proof. apply (getFileType_normalized "Archive.TAR.GZ" "gz"). reflexivity. Defined.

Lemma not_inherited (ext : string) :
  JS.toLowerCase ext <> "constructor" -> JS.toLowerCase ext <> "__proto__" ->
  JS.inherited JS.Object_prototype (JS.toLowerCase ext) = None.
Proof.
  intros H1 H2.
  destruct (JS.inherited JS.Object_prototype (JS.toLowerCase ext)) as [v|] eqn:E;
    [|reflexivity].
  destruct (inherited_lower _ _ (toLowerCase_idem ext) E) as [[H _]|[H _]];
    contradiction.
Qed.

(** X5. For a name with a dot, [getFileType] classifies the lower-cased
    text after the last dot by the table: the label of the table when that
    is one of its keys, the lower-cased text itself otherwise; this for
    every such text but [constructor] and [__proto__]. *)
Theorem getFileType_table (base ext : string) :
  free_of "." ext = true ->
  JS.toLowerCase ext <> "constructor" -> JS.toLowerCase ext <> "__proto__" ->
  getFileType (base ++ String "." ext) = classify_by_table (JS.toLowerCase ext).
Proof.
  intros Hf H1 H2. apply getFileType_dotted; [exact Hf|].
  now apply not_inherited.
Qed.

Lemma getFileType_table_witness :
  getFileType "slides.v2.PPTX" = classify_by_table "pptx".
Proof.
  apply (getFileType_table "slides.v2" "PPTX");
    [reflexivity | discriminate | discriminate].
Defined.

(** X6. A name without a dot is classified as if the whole of it were the
    extension: the label of the table when the lower-cased name is one of
    its keys, the lower-cased name otherwise; this for every such name but
    [constructor] and [__proto__], in any letter case. *)
Theorem getFileType_whole_name (filename : string) :
  free_of "." filename = true ->
  JS.toLowerCase filename <> "constructor" ->
  JS.toLowerCase filename <> "__proto__" ->
  getFileType filename = classify_by_table (JS.toLowerCase filename).
Proof.
  intros Hf H1 H2. apply getFileType_plain; [exact Hf|].
  now apply not_inherited.
Qed.

Lemma getFileType_whole_name_witness :
  getFileType "PDF" = classify_by_table "pdf".
Proof.
  apply (getFileType_whole_name "PDF");
    [reflexivity | discriminate | discriminate].
Defined.

(** * More on [formatDate] *)

Lemma append_not_empty (a b : string) : b <> "" -> a ++ b <> "".
Proof. destruct a; [auto | discriminate]. Qed.

Lemma rendering_not_empty (host : Date.Host) (tv : Z) : rendering host tv <> "".
Proof. unfold rendering. apply append_not_empty. discriminate. Qed.

(** X7. [formatDate] returns the empty string for the empty input and for
    no other input. *)
Theorem formatDate_empty_iff (host : Date.Host) (inputDate : string) :
  formatDate host inputDate = "" <-> inputDate = "".
Proof.
  split; [|now intros ->].
  intros H. destruct (string_dec inputDate "") as [E|N]; [exact E|].
  destruct (Date.new host inputDate) as [tv|] eqn:D.
  - rewrite (formatDate_rendering host _ tv N D) in H.
    now apply rendering_not_empty in H.
  - rewrite (formatDate_NaN host _ N D) in H. discriminate.
Qed.

(** ** The minute of local time *)

Module MinuteFacts.

Import Date.

(** The fields that are displayed, from the minute count of local time. *)
Lemma Day_minute (t : Z) : Day t = t / msPerMinute / 1440.
Proof.
  unfold Day, msPerDay, msPerMinute. Z.to_euclidean_division_equations; lia.
Qed.

Lemma HourFromTime_minute (t : Z) : HourFromTime t = (t / msPerMinute / 60) mod 24.
Proof.
  unfold HourFromTime, msPerHour, msPerMinute. f_equal.
  Z.to_euclidean_division_equations; lia.
Qed.

Lemma minute_fields (t : Z) :
  t / msPerMinute = Day t * 1440 + HourFromTime t * 60 + MinFromTime t.
Proof.
  rewrite HourFromTime_minute, Day_minute. unfold MinFromTime.
  Z.to_euclidean_division_equations; lia.
Qed.

(** The day number is the one of its year, month and day of the month. *)
Lemma Day_fields (t : Z) :
  Day t = DayFromYear (YearFromTime t)
          + DaysBeforeMonth (MonthFromTime t) (DaysInYear (YearFromTime t) - 365)
          + DateFromTime t - 1.
Proof. unfold DateFromTime, DayWithinYear, InLeapYear. lia. Qed.

Lemma same_minute_fields (t u : Z) :
  t / msPerMinute = u / msPerMinute ->
  YearFromTime t = YearFromTime u /\ MonthFromTime t = MonthFromTime u
  /\ DateFromTime t = DateFromTime u /\ HourFromTime t = HourFromTime u
  /\ MinFromTime t = MinFromTime u.
Proof.
  intros H.
  assert (D : Day t = Day u) by (now rewrite !Day_minute, H).
  assert (Y : YearFromTime t = YearFromTime u)
    by (unfold YearFromTime; now rewrite D).
  assert (M : MonthFromTime t = MonthFromTime u)
    by (unfold MonthFromTime, DayWithinYear, InLeapYear; now rewrite D, Y).
  repeat split; try assumption.
  - unfold DateFromTime, DayWithinYear, InLeapYear. now rewrite D, Y, M.
  - now rewrite !HourFromTime_minute, H.
  - unfold MinFromTime. now rewrite H.
Qed.

Lemma fields_same_minute (t u : Z) :
  YearFromTime t = YearFromTime u -> MonthFromTime t = MonthFromTime u ->
  DateFromTime t = DateFromTime u -> HourFromTime t = HourFromTime u ->
  MinFromTime t = MinFromTime u ->
  t / msPerMinute = u / msPerMinute.
Proof.
  intros Y M D H N.
  rewrite (minute_fields t), (minute_fields u), (Day_fields t), (Day_fields u).
  now rewrite Y, M, D, H, N.
Qed.

End MinuteFacts.

(** ** Reading a rendering back *)

Lemma string_of_uint_free (d : Decimal.uint) :
  free_of "/" (NilEmpty.string_of_uint d) = true.
Proof. induction d; simpl; auto. Qed.

Lemma toString_free (z : Z) : free_of "/" (Num.toString (JS.Num z)) = true.
Proof.
  unfold Num.toString, NilZero.string_of_int, NilZero.string_of_uint.
  destruct (Z.to_int z) as [d|d]; destruct d; simpl;
    try reflexivity; apply string_of_uint_free.
Qed.

Lemma to_int_not_nil (z : Z) :
  Z.to_int z <> Decimal.Pos Decimal.Nil /\ Z.to_int z <> Decimal.Neg Decimal.Nil.
Proof.
  split; intros E; pose proof (DecimalZ.of_to z) as H; rewrite E in H;
    cbn in H; subst z; discriminate E.
Qed.

Lemma toString_inj (a b : Z) :
  Num.toString (JS.Num a) = Num.toString (JS.Num b) -> a = b.
Proof.
  unfold Num.toString. intros H.
  apply DecimalZ.to_int_inj.
  destruct (to_int_not_nil a) as [A1 A2], (to_int_not_nil b) as [B1 B2].
  pose proof (NilZero.isi _ A1 A2) as Ia.
  pose proof (NilZero.isi _ B1 B2) as Ib.
  rewrite H in Ia. congruence.
Qed.

(** Two strings cut at their first [/] agree on both sides of it. *)
Lemma cut_at_slash (a b r s : string) :
  free_of "/" a = true -> free_of "/" b = true ->
  a ++ String "/" r = b ++ String "/" s -> a = b /\ r = s.
Proof.
  revert b. induction a as [|c a IH]; intros [|d b]; simpl.
  - intros _ _ [= ->]. now split.
  - intros _ Hb [= <- _]. discriminate Hb.
  - intros Ha _ [= -> _]. discriminate Ha.
  - intros Ha Hb [= -> E].
    apply andb_true_iff in Ha, Hb.
    destruct (IH b (proj2 Ha) (proj2 Hb) E) as [-> ->]. now split.
Qed.

Lemma append_nil_r_two (n : Z) : two n ++ "" = two n.
Proof. reflexivity. Qed.

Lemma two_app_inj (m n : Z) (r s : string) :
  0 <= m <= 99 -> 0 <= n <= 99 -> two m ++ r = two n ++ s -> m = n /\ r = s.
Proof.
  intros Hm Hn. unfold two. cbn [append]. intros H.
  assert (E1 : JS.chr (48 + m / 10) = JS.chr (48 + n / 10)) by congruence.
  assert (E2 : JS.chr (48 + m mod 10) = JS.chr (48 + n mod 10)) by congruence.
  split; [|congruence].
  apply (f_equal JS.code) in E1, E2.
  assert (R : forall k, 0 <= k <= 99 ->
                0 <= 48 + k / 10 < 256 /\ 0 <= 48 + k mod 10 < 256)
    by (intros k Hk; Z.to_euclidean_division_equations; lia).
  rewrite (code_chr _ (proj1 (R m Hm))), (code_chr _ (proj1 (R n Hn))) in E1.
  rewrite (code_chr _ (proj2 (R m Hm))), (code_chr _ (proj2 (R n Hn))) in E2.
  Z.to_euclidean_division_equations; lia.
Qed.

Lemma string_cons_inj (c : ascii) (r s : string) : String c r = String c s -> r = s.
Proof. congruence. Qed.

(** X8. Two valid dates are formatted alike exactly when they lie in the
    same minute of local time: seconds and milliseconds are dropped, and
    nothing else is. *)
Theorem formatDate_same_minute (host : Date.Host) (s1 s2 : string) (tv1 tv2 : Z) :
  s1 <> "" -> s2 <> "" ->
  Date.new host s1 = Some tv1 -> Date.new host s2 = Some tv2 ->
  (formatDate host s1 = formatDate host s2
   <-> Date.LocalTime host tv1 / Date.msPerMinute
       = Date.LocalTime host tv2 / Date.msPerMinute).
Proof.
  intros N1 N2 D1 D2.
  rewrite (formatDate_rendering host s1 tv1 N1 D1).
  rewrite (formatDate_rendering host s2 tv2 N2 D2).
  unfold rendering.
  set (t := Date.LocalTime host tv1). set (u := Date.LocalTime host tv2).
  split.
  - intros H.
    pose proof (DateFacts.MonthFromTime_range t).
    pose proof (DateFacts.MonthFromTime_range u).
    pose proof (DateFacts.DateFromTime_range t).
    pose proof (DateFacts.DateFromTime_range u).
    pose proof (DateFacts.HourFromTime_range t).
    pose proof (DateFacts.HourFromTime_range u).
    pose proof (DateFacts.MinFromTime_range t).
    pose proof (DateFacts.MinFromTime_range u).
    apply cut_at_slash in H; try apply toString_free.
    destruct H as [Y H]. apply toString_inj in Y.
    apply two_app_inj in H; try lia. destruct H as [M H].
    apply string_cons_inj in H.
    apply two_app_inj in H; try lia. destruct H as [D H].
    apply string_cons_inj in H.
    apply two_app_inj in H; try lia. destruct H as [Hh H].
    apply string_cons_inj in H.
    rewrite <- (append_nil_r_two (Date.MinFromTime t)) in H.
    rewrite <- (append_nil_r_two (Date.MinFromTime u)) in H.
    apply two_app_inj in H; try lia. destruct H as [Mi _].
    apply MinuteFacts.fields_same_minute; lia.
  - intros H.
    destruct (MinuteFacts.same_minute_fields t u H) as (-> & -> & -> & -> & ->).
    reflexivity.
Qed.

Lemma formatDate_same_minute_witness :
  formatDate (IsoHost.host 0) "2023-01-05T09:03:00"
  = formatDate (IsoHost.host 0) "2023-01-05T09:03:59.999".
Proof.
  apply (formatDate_same_minute (IsoHost.host 0) "2023-01-05T09:03:00"
           "2023-01-05T09:03:59.999" 1672909380000 1672909439999);
    [discriminate | discriminate | reflexivity | reflexivity | reflexivity].
Defined.

(** ** ISO date-times through [formatDate] *)

Module IsoFacts.

Import Date.

(** The day number made of a year, a month and a day of that month has
    these as its fields. *)
Ltac month_cases m C :=
  decompose [or] C; subst m;
  repeat match goal with
    | |- context [Z.pos ?p - 1] =>
        let v := eval compute in (Z.pos p - 1) in
        change (Z.pos p - 1) with v in *
    end;
  cbn [DaysBeforeMonth DaysInMonth] in *.

Lemma MakeDay_fields (y m d t : Z) :
  1 <= m <= 12 -> 1 <= d <= DaysInMonth y m ->
  Day t = MakeDay y (m - 1) d ->
  YearFromTime t = y /\ MonthFromTime t = m - 1 /\ DateFromTime t = d.
Proof.
  intros Hm Hd Ht.
  unfold MakeDay in Ht.
  rewrite (Z.div_small (m - 1) 12), (Z.mod_small (m - 1) 12), Z.add_0_r in Ht
    by lia.
  assert (L : DaysInYear y - 365 = 0 \/ DaysInYear y - 365 = 1).
  { unfold DaysInYear.
    repeat match goal with |- context [negb ?b] => destruct b; cbn [negb] end;
      lia. }
  assert (C : m = 1 \/ m = 2 \/ m = 3 \/ m = 4 \/ m = 5 \/ m = 6 \/ m = 7
              \/ m = 8 \/ m = 9 \/ m = 10 \/ m = 11 \/ m = 12) by lia.
  set (l := DaysInYear y - 365) in *.
  assert (Y : YearFromTime t = y).
  { unfold YearFromTime. apply DateFacts.YearFromDay_unique.
    rewrite DateFacts.DayFromYear_succ, Ht.
    replace (DaysInYear y) with (365 + l) by (subst l; lia).
    month_cases m C; lia. }
  assert (W : DayWithinYear t = DaysBeforeMonth (m - 1) l + d - 1)
    by (unfold DayWithinYear; rewrite Y; lia).
  assert (M : MonthFromTime t = m - 1).
  { unfold MonthFromTime, InLeapYear. rewrite W, Y. fold l.
    month_cases m C;
      repeat match goal with
        | |- context [?a <? ?b] => destruct (Z.ltb_spec a b); try lia
        end. }
  repeat split; try assumption.
  unfold DateFromTime, InLeapYear. rewrite W, M, Y. fold l. lia.
Qed.


(** *** The parser on a string made of its fields *)

Lemma append_assoc (a b c : string) : (a ++ b) ++ c = a ++ b ++ c.
Proof. induction a as [|x a IH]; simpl; [reflexivity | now rewrite IH]. Qed.

Lemma digit_chr (k : Z) : 0 <= k <= 9 -> IsoHost.digit (JS.chr (48 + k)) = Some k.
Proof.
  intros H. unfold IsoHost.digit. rewrite code_chr by lia.
  destruct (Z.leb_spec 48 (48 + k)), (Z.leb_spec (48 + k) 57); try lia.
  cbn [andb]. f_equal. lia.
Qed.

Lemma digits_step (k : nat) (acc n : Z) (r : string) :
  0 <= n <= 99 ->
  IsoHost.digits (S (S k)) acc (two n ++ r) = IsoHost.digits k (100 * acc + n) r.
Proof.
  intros H. unfold two. cbn [append IsoHost.digits].
  rewrite !digit_chr by (Z.to_euclidean_division_equations; lia).
  f_equal. Z.to_euclidean_division_equations; lia.
Qed.

Lemma digits_two (n : Z) (r : string) :
  0 <= n <= 99 -> IsoHost.digits 2 0 (two n ++ r) = Some (n, r).
Proof.
  intros H. rewrite digits_step by assumption. cbn [IsoHost.digits].
  now replace (100 * 0 + n) with n by lia.
Qed.

Lemma digits_four (y : Z) (r : string) :
  0 <= y <= 9999 -> IsoHost.digits 4 0 (four y ++ r) = Some (y, r).
Proof.
  intros H. unfold four. rewrite append_assoc.
  rewrite !digits_step by (Z.to_euclidean_division_equations; lia).
  cbn [IsoHost.digits].
  replace (100 * (100 * 0 + y / 100) + y mod 100) with y
    by (Z.to_euclidean_division_equations; lia).
  reflexivity.
Qed.

Lemma within_ok (lo hi v : Z) : lo <= v <= hi -> IsoHost.within lo hi v = Some tt.
Proof.
  intros H. unfold IsoHost.within.
  destruct (Z.leb_spec lo v), (Z.leb_spec v hi); try lia. reflexivity.
Qed.

(** A string that starts with a digit is read as a year of four digits. *)
Lemma year_digit (c : ascii) (r : string) (k : Z) :
  IsoHost.digit c = Some k ->
  IsoHost.year (String c r) = IsoHost.digits 4 0 (String c r).
Proof.
  destruct c as [[] [] [] [] [] [] [] []]; intros H;
    try reflexivity; discriminate H.
Qed.

Lemma year_four (y : Z) (r : string) :
  0 <= y <= 9999 -> IsoHost.year (four y ++ r) = Some (y, r).
Proof.
  intros H. rewrite <- (digits_four y r H).
  unfold four. rewrite append_assoc. unfold two at 1 3. cbn [append].
  apply (year_digit _ _ (y / 100 / 10)), digit_chr.
  Z.to_euclidean_division_equations; lia.
Qed.

Lemma dash_field_two (lo hi dflt n : Z) (r : string) :
  0 <= n <= 99 -> lo <= n <= hi ->
  IsoHost.dash_field lo hi dflt (String "-" (two n ++ r)) = Some (n, r).
Proof.
  intros H R. unfold IsoHost.dash_field.
  now rewrite digits_two, within_ok by assumption.
Qed.

Lemma date_fields (y m d : Z) (r : string) :
  0 <= y <= 9999 -> 1 <= m <= 12 -> 1 <= d <= 31 ->
  IsoHost.date (four y ++ String "-" (two m ++ String "-" (two d ++ r)))
  = Some (MakeDay y (m - 1) d, r).
Proof.
  intros Hy Hm Hd. unfold IsoHost.date.
  rewrite year_four by assumption.
  now rewrite !dash_field_two by lia.
Qed.

Lemma seconds_fields (sec : Z) :
  0 <= sec <= 59 ->
  IsoHost.seconds (String ":" (two sec)) = Some (sec, 0, "").
Proof.
  intros H. unfold IsoHost.seconds.
  change (two sec) with (two sec ++ "").
  now rewrite digits_two, within_ok by lia.
Qed.

Lemma time_fields (h mi sec : Z) :
  0 <= h <= 23 -> 0 <= mi <= 59 -> 0 <= sec <= 59 ->
  IsoHost.time (String "T" (two h ++ String ":" (two mi ++ String ":" (two sec))))
  = Some (MakeTime h mi sec 0, IsoHost.Local).
Proof.
  intros Hh Hm Hs. unfold IsoHost.time.
  rewrite digits_two, within_ok by lia.
  rewrite digits_two, within_ok by lia.
  rewrite seconds_fields by assumption.
  cbn [IsoHost.utc_offset].
  destruct (Z.eqb_spec h 24); [lia|]. reflexivity.
Qed.

Lemma fields_iso_local (y m d h mi sec : Z) :
  0 <= y <= 9999 -> 1 <= m <= 12 -> 1 <= d <= 31 ->
  0 <= h <= 23 -> 0 <= mi <= 59 -> 0 <= sec <= 59 ->
  IsoHost.fields (iso_local y m d h mi sec)
  = Some (MakeDate (MakeDay y (m - 1) d) (MakeTime h mi sec 0), IsoHost.Local).
Proof.
  intros Hy Hm Hd Hh Hmi Hs. unfold IsoHost.fields, iso_local.
  rewrite date_fields by assumption.
  now rewrite time_fields by assumption.
Qed.

End IsoFacts.

Lemma DaysInMonth_le (y m : Z) : DaysInMonth y m <= 31.
Proof.
  unfold DaysInMonth, Date.DaysInYear.
  repeat match goal with |- context [negb ?b] => destruct b; cbn [negb] end;
    destruct m as [|p|p]; try lia;
    repeat (destruct p as [p|p|]; try lia).
Qed.

(** X9. On a host that reads the ECMAScript format and keeps local time at
    a fixed offset, a local date-time [YYYY-MM-DDTHH:mm:ss] of the years 0
    to 9999 is formatted with the fields it was written with: the year
    without its leading zeros, then the same month, day, hour and minute. *)
Theorem formatDate_iso_local (offset y m d h mi sec : Z) :
  Z.abs offset <= Date.msPerDay ->
  0 <= y <= 9999 -> 1 <= m <= 12 -> 1 <= d <= DaysInMonth y m ->
  0 <= h <= 23 -> 0 <= mi <= 59 -> 0 <= sec <= 59 ->
  formatDate (IsoHost.host offset) (iso_local y m d h mi sec)
  = Num.toString (JS.Num y) ++ "/" ++ two m ++ "/" ++ two d
    ++ " " ++ two h ++ ":" ++ two mi.
Proof.
  intros Ho Hy Hm Hd Hh Hmi Hs.
  pose proof (DaysInMonth_le y m) as Hle.
  set (lt := Date.MakeDate (Date.MakeDay y (m - 1) d) (Date.MakeTime h mi sec 0)).
  assert (Hday : Date.Day lt = Date.MakeDay y (m - 1) d).
  { subst lt. unfold Date.Day, Date.MakeDate, Date.MakeTime, Date.msPerDay,
      Date.msPerHour, Date.msPerMinute, Date.msPerSecond.
    Z.to_euclidean_division_equations; lia. }
  destruct (IsoFacts.MakeDay_fields y m d lt Hm Hd Hday) as (Y & M & D).
  assert (Hb : Z.abs lt <= 8000000000000000).
  { assert (B : -800000 <= Date.MakeDay y (m - 1) d <= 3000000).
    { rewrite <- Hday.
      pose proof (DateFacts.DayWithinYear_range lt) as W.
      pose proof (DateFacts.InLeapYear_range lt) as L.
      unfold Date.DayWithinYear in W. rewrite Y in W.
      unfold Date.DayFromYear in W.
      Z.to_euclidean_division_equations; lia. }
    subst lt. unfold Date.MakeDate, Date.MakeTime, Date.msPerDay,
      Date.msPerHour, Date.msPerMinute, Date.msPerSecond. lia. }
  destruct (IsoHost_local_time offset (iso_local y m d h mi sec) lt Ho Hb)
    as (tv & Hnew & Hlt).
  { apply IsoFacts.fields_iso_local; try assumption. lia. }
  rewrite (formatDate_rendering (IsoHost.host offset) _ tv); [|
    unfold iso_local, four, two; discriminate | exact Hnew].
  unfold rendering. rewrite Hlt, Y, M, D.
  replace (m - 1 + 1) with m by lia.
  assert (Hh' : Date.HourFromTime lt = h).
  { subst lt. unfold Date.HourFromTime, Date.MakeDate, Date.MakeTime,
      Date.msPerDay, Date.msPerHour, Date.msPerMinute, Date.msPerSecond.
    Z.to_euclidean_division_equations; lia. }
  assert (Hm' : Date.MinFromTime lt = mi).
  { subst lt. unfold Date.MinFromTime, Date.MakeDate, Date.MakeTime,
      Date.msPerDay, Date.msPerHour, Date.msPerMinute, Date.msPerSecond.
    Z.to_euclidean_division_equations; lia. }
  now rewrite Hh', Hm'.
Qed.

Lemma formatDate_iso_local_witness :
  formatDate (IsoHost.host 28800000) (iso_local 2024 2 29 23 59 58)
  = "2024/02/29 23:59".
Proof.
  apply (formatDate_iso_local 28800000 2024 2 29 23 59 58);
    first [lia | vm_compute; split; discriminate | vm_compute; discriminate].
Defined.

(** * More on the binary conversions *)

Lemma Z_of_byte_of_Z (z : Z) : 0 <= z < 256 -> Z_of_byte (byte_of_Z z) = z.
Proof.
  intros H. unfold Z_of_byte, byte_of_Z. rewrite Z.mod_small by exact H.
  destruct (Byte.of_N (Z.to_N z)) as [b|] eqn:E.
  - apply Byte.to_of_N in E. lia.
  - apply Byte.of_N_None_iff in E. lia.
Qed.

Lemma Z_of_byte_of_ascii (c : ascii) : Z_of_byte (byte_of_ascii c) = JS.code c.
Proof. rewrite <- byte_of_Z_code. apply Z_of_byte_of_Z, code_range. Qed.

(** ** Whitespace and foreign characters *)

Lemma remove_whitespace_insert (a b : string) (w : ascii) :
  Base64.is_whitespace w = true ->
  Base64.remove_whitespace (a ++ String w b) = Base64.remove_whitespace (a ++ b).
Proof.
  intros H. induction a as [|c a IH]; simpl.
  - now rewrite H.
  - now rewrite IH.
Qed.

Lemma atob_insert_whitespace (a b : string) (w : ascii) :
  Base64.is_whitespace w = true ->
  Base64.atob (a ++ String w b) = Base64.atob (a ++ b).
Proof.
  intros H. unfold Base64.atob, Base64.forgiving_decode.
  now rewrite (remove_whitespace_insert a b w H).
Qed.

(** X10. ASCII whitespace anywhere in the payload changes nothing: with or
    without it both conversions give the same bytes, or the same error. *)
Theorem base64_whitespace_ignored (a b filename : string) (w : ascii) :
  Base64.is_whitespace w = true ->
  base64ToArrayBuffer (a ++ String w b) = base64ToArrayBuffer (a ++ b)
  /\ base64ToFile (a ++ String w b) filename = base64ToFile (a ++ b) filename.
Proof.
  intros H. unfold base64ToArrayBuffer, base64ToFile.
  now rewrite (atob_insert_whitespace a b w H).
Qed.

Lemma base64_whitespace_ignored_witness :
  base64ToArrayBuffer "aGVs bG8=" = base64ToArrayBuffer "aGVsbG8="
  /\ base64ToFile "aGVs bG8=" "hello.txt" = base64ToFile "aGVsbG8=" "hello.txt".
Proof.
  apply (base64_whitespace_ignored "aGVs" "bG8=" "hello.txt" " "%char).
  reflexivity.
Defined.

(** A digit of the alphabet is neither whitespace nor padding. *)
Lemma sextet_plain (c : ascii) (v : Z) :
  Base64.sextet c = Some v ->
  Base64.is_whitespace c = false /\ Ascii.eqb c "=" = false.
Proof.
  destruct c as [[] [] [] [] [] [] [] []]; intros H;
    try discriminate H; split; reflexivity.
Qed.

Lemma sextets_plain (s : string) (vs : list Z) :
  Base64.sextets s = Some vs ->
  Base64.remove_whitespace s = s /\ Base64.strip_padding s = s.
Proof.
  revert vs. induction s as [|c s IH]; intros vs H; [now split|].
  cbn [Base64.sextets] in H.
  destruct (Base64.sextet c) as [v|] eqn:Ec; [|discriminate].
  destruct (Base64.sextets s) as [ws|]; [|discriminate].
  destruct (sextet_plain c v Ec) as [W Q].
  destruct (IH ws eq_refl) as [IH1 IH2].
  rewrite remove_whitespace_cons, strip_padding_cons by assumption.
  now rewrite IH1, IH2.
Qed.

(** A string of digits alone is decoded as it stands. *)
Lemma forgiving_decode_digits (s : string) (vs : list Z) :
  Base64.sextets s = Some vs -> JS.length s mod 4 <> 1 ->
  Base64.forgiving_decode s = Some (Base64.drain vs 0 0).
Proof.
  intros H L. destruct (sextets_plain s vs H) as [W P].
  unfold Base64.forgiving_decode. rewrite W.
  assert (E : (if JS.length s mod 4 =? 0 then Base64.strip_padding s else s) = s)
    by (destruct (_ =? 0); [exact P | reflexivity]).
  rewrite E, H.
  now destruct (Z.eqb_spec (JS.length s mod 4) 1).
Qed.

(** X11. The padding is optional: the reference encoding without its
    trailing [=] decodes to the same bytes. *)
Theorem base64ToArrayBuffer_unpadded (b : list byte) :
  base64ToArrayBuffer (Base64.strip_padding (Base64.encodeBase64 b)) = Ok b.
Proof.
  destruct (encodeBase64_decodes b) as (_ & _ & Hs & vs & Hv & Hd).
  assert (A : Base64.atob (Base64.strip_padding (Base64.encodeBase64 b))
              = Ok (string_of_list_byte b)).
  { unfold Base64.atob.
    now rewrite (forgiving_decode_digits _ vs Hv Hs), Hd. }
  rewrite (base64ToArrayBuffer_of_atob _ _ A).
  now rewrite list_byte_of_string_of_list_byte.
Qed.

(** ** Rejected payloads *)

Lemma sextets_app_none (a b : string) (c : ascii) :
  Base64.sextet c = None -> Base64.sextets (a ++ String c b) = None.
Proof.
  intros H. induction a as [|x a IH]; simpl.
  - now rewrite H.
  - rewrite IH. now destruct (Base64.sextet x).
Qed.

(** An [=] is kept unless all that follows it is at most one more [=]. *)
Lemma strip_padding_eq_cons (r : string) :
  r <> "" -> r <> "=" ->
  Base64.strip_padding (String "=" r) = String "=" (Base64.strip_padding r).
Proof.
  intros H0 H1. destruct r as [|y r]; [contradiction|].
  destruct r as [|z r].
  - destruct y as [[] [] [] [] [] [] [] []]; try reflexivity. contradiction.
  - destruct y as [[] [] [] [] [] [] [] []]; reflexivity.
Qed.

(** A character other than [=] is never part of the padding. *)
Lemma strip_padding_keeps (a b : string) (c : ascii) :
  Ascii.eqb c "=" = false ->
  exists a' b', Base64.strip_padding (a ++ String c b) = a' ++ String c b'.
Proof.
  intros H. induction a as [|x a (a' & b' & IH)].
  - exists "", (Base64.strip_padding b). cbn [append].
    now rewrite strip_padding_cons.
  - exists (String x a'), b'. cbn [append]. rewrite <- IH.
    destruct (Ascii.eqb x "=") eqn:E; [|now apply strip_padding_cons].
    apply Ascii.eqb_eq in E. subst x.
    apply strip_padding_eq_cons.
    + now destruct a.
    + destruct a as [|y a]; cbn [append].
      * intros [= ->]. discriminate H.
      * destruct a; discriminate.
Qed.

Lemma remove_whitespace_keeps (a b : string) (c : ascii) :
  Base64.is_whitespace c = false ->
  Base64.remove_whitespace (a ++ String c b)
  = Base64.remove_whitespace a ++ String c (Base64.remove_whitespace b).
Proof.
  intros H. induction a as [|x a IH]; simpl.
  - now rewrite H.
  - rewrite IH. now destruct (Base64.is_whitespace x).
Qed.

Lemma forgiving_decode_foreign (a b : string) (c : ascii) :
  Base64.sextet c = None -> Base64.is_whitespace c = false ->
  Ascii.eqb c "=" = false ->
  Base64.forgiving_decode (a ++ String c b) = None.
Proof.
  intros Hs Hw He. rewrite forgiving_decode_payload.
  destruct (_ =? 1); [reflexivity|].
  unfold payload. rewrite (remove_whitespace_keeps a b c Hw).
  destruct (_ =? 0).
  - destruct (strip_padding_keeps (Base64.remove_whitespace a)
                (Base64.remove_whitespace b) c He) as (a' & b' & ->).
    now rewrite sextets_app_none.
  - now rewrite sextets_app_none.
Qed.

(** X12. A payload that holds a character outside the base64 alphabet,
    other than ASCII whitespace and [=], is rejected by both conversions
    with an [InvalidCharacterError]; so are the [-] and [_] of the URL-safe
    alphabet. *)
Theorem base64_foreign_character (a b filename : string) (c : ascii) :
  Base64.sextet c = None -> Base64.is_whitespace c = false -> c <> "="%char ->
  base64ToArrayBuffer (a ++ String c b) = Throw InvalidCharacterError
  /\ base64ToFile (a ++ String c b) filename = Throw InvalidCharacterError.
Proof.
  intros Hs Hw He.
  assert (E : Ascii.eqb c "=" = false) by now apply Ascii.eqb_neq.
  unfold base64ToArrayBuffer, base64ToFile, Base64.atob.
  now rewrite (forgiving_decode_foreign a b c Hs Hw E).
Qed.

Lemma base64_foreign_character_witness :
  base64ToArrayBuffer "aGVs_G8-" = Throw InvalidCharacterError
  /\ base64ToFile "aGVs_G8-" "hello.txt" = Throw InvalidCharacterError.
Proof.
  apply (base64_foreign_character "aGVs" "G8-" "hello.txt" "_"%char);
    [reflexivity | reflexivity | discriminate].
Defined.

(** ** The file and the buffer *)

Lemma count_high_nonneg (s : string) : 0 <= count_high s.
Proof.
  induction s as [|c s IH]; simpl; [lia|].
  destruct (JS.code c <? 128); lia.
Qed.

Lemma high_bytes_of_string (s : string) :
  high_bytes (list_byte_of_string s) = count_high s.
Proof.
  unfold list_byte_of_string.
  induction s as [|c s IH]; [reflexivity|].
  cbn [list_ascii_of_string map high_bytes count_high].
  now rewrite Z_of_byte_of_ascii, IH.
Qed.

(** The UTF-8 encoding of a binary string is the string of its bytes
    exactly when no code unit reaches 128. *)
Lemma blob_is_bytes (s : string) :
  Blob.of_string s = list_byte_of_string s <-> count_high s = 0.
Proof.
  split.
  - intros H. apply (f_equal (fun l => Z.of_nat (List.length l))) in H.
    rewrite blob_length, length_list_byte_of_string in H. lia.
  - unfold list_byte_of_string.
    induction s as [|c s IH]; [reflexivity|].
    cbn [count_high Blob.of_string list_ascii_of_string map].
    pose proof (count_high_nonneg s).
    unfold Blob.utf8_unit.
    destruct (Z.ltb_spec (JS.code c) 128); [|lia].
    intros E. rewrite IH by lia. cbn [app]. now rewrite byte_of_Z_code.
Qed.

(** X13. [base64ToFile] succeeds exactly when [base64ToArrayBuffer] does,
    and throws the same error when it does not.  The file carries the given
    name and an empty type; its size is the length of the buffer plus the
    number of bytes from 128 on, and its bytes are those of the buffer
    exactly when there is no such byte. *)
Theorem base64ToFile_outcome (base64 filename : string) :
  match base64ToArrayBuffer base64 with
  | Ok buffer =>
      exists file,
        base64ToFile base64 filename = Ok file
        /\ name file = filename /\ type file = ""
        /\ size file = Z.of_nat (List.length buffer) + high_bytes buffer
        /\ (bytes file = buffer <-> high_bytes buffer = 0)
  | Throw e => base64ToFile base64 filename = Throw e
  end.
Proof.
  destruct (Base64.atob base64) as [bin|e] eqn:A.
  - rewrite (base64ToArrayBuffer_of_atob _ _ A).
    unfold base64ToFile. rewrite A. cbn [bind].
    eexists. split; [reflexivity|].
    unfold size, File_new. cbn [name type bytes].
    rewrite high_bytes_of_string, length_list_byte_of_string.
    repeat split; try reflexivity.
    + apply blob_length.
    + apply blob_is_bytes.
    + apply blob_is_bytes.
  - rewrite (base64ToArrayBuffer_throw _ _ A).
    unfold base64ToFile. now rewrite A.
Qed.

(** ** A bound on the length *)

Lemma remove_whitespace_length (s : string) :
  JS.length (Base64.remove_whitespace s) <= JS.length s.
Proof.
  induction s as [|c s IH]; [reflexivity|].
  cbn [Base64.remove_whitespace].
  destruct (Base64.is_whitespace c); rewrite !length_cons; lia.
Qed.

Lemma strip_padding_length (s : string) :
  JS.length (Base64.strip_padding s) <= JS.length s.
Proof.
  induction s as [|c s IH]; [reflexivity|].
  destruct (Ascii.eqb c "=") eqn:E.
  - apply Ascii.eqb_eq in E. subst c.
    destruct s as [|y s]; [now vm_compute|].
    destruct (string_dec (String y s) "=") as [->|N]; [now vm_compute|].
    rewrite strip_padding_eq_cons by (discriminate || exact N).
    rewrite !(length_cons "="). lia.
  - rewrite strip_padding_cons by exact E. rewrite !(length_cons c). lia.
Qed.

Lemma payload_length (s : string) : JS.length (payload s) <= JS.length s.
Proof.
  unfold payload. pose proof (remove_whitespace_length s).
  pose proof (strip_padding_length (Base64.remove_whitespace s)).
  destruct (_ =? 0); lia.
Qed.

(** X14. The buffer is never longer than three quarters of the payload. *)
Theorem base64ToArrayBuffer_bound (base64 : string) (buffer : list byte) :
  base64ToArrayBuffer base64 = Ok buffer ->
  4 * Z.of_nat (List.length buffer) <= 3 * JS.length base64.
Proof.
  intros H. destruct (Base64.atob base64) as [bin|e] eqn:A.
  - rewrite (base64ToArrayBuffer_of_atob _ _ A) in H. injection H as <-.
    rewrite length_list_byte_of_string, (atob_length _ _ A).
    pose proof (payload_length base64).
    Z.to_euclidean_division_equations; lia.
  - rewrite (base64ToArrayBuffer_throw _ _ A) in H. discriminate.
Qed.

Lemma base64ToArrayBuffer_bound_witness :
  4 * Z.of_nat (List.length [x68; x65; x6c; x6c; x6f]) <= 3 * JS.length "aGVsbG8=".
Proof. apply base64ToArrayBuffer_bound. reflexivity. Defined.

(** ** What the file keeps of the bytes *)

Lemma utf8_first_unit (c : ascii) (r : list byte) :
  utf8_first (Blob.utf8_unit c ++ r) = Some (c, r).
Proof. destruct c as [[] [] [] [] [] [] [] []]; reflexivity. Qed.

Lemma blob_inj (s1 s2 : string) :
  Blob.of_string s1 = Blob.of_string s2 -> s1 = s2.
Proof.
  revert s2. induction s1 as [|c1 s1 IH]; intros [|c2 s2] H.
  - reflexivity.
  - apply (f_equal utf8_first) in H. cbn [Blob.of_string] in H.
    rewrite utf8_first_unit in H. discriminate.
  - apply (f_equal utf8_first) in H. cbn [Blob.of_string] in H.
    rewrite utf8_first_unit in H. discriminate.
  - apply (f_equal utf8_first) in H. cbn [Blob.of_string] in H.
    rewrite !utf8_first_unit in H.
    assert (E1 : c1 = c2) by congruence.
    assert (E2 : Blob.of_string s1 = Blob.of_string s2) by congruence.
    now rewrite E1, (IH _ E2).
Qed.

(** X15. The file keeps the decoded bytes apart: two payloads that give
    files of the same content decode to the same buffer. *)
Theorem base64ToFile_content_inj (a b na nb : string) (fa fb : File) :
  base64ToFile a na = Ok fa -> base64ToFile b nb = Ok fb ->
  bytes fa = bytes fb ->
  base64ToArrayBuffer a = base64ToArrayBuffer b.
Proof.
  unfold base64ToFile.
  destruct (Base64.atob a) as [sa|] eqn:Aa; [|discriminate].
  destruct (Base64.atob b) as [sb|] eqn:Ab; [|discriminate].
  cbn [bind]. intros [= <-] [= <-]. cbn [File_new bytes]. intros E.
  apply blob_inj in E. subst sb.
  now rewrite (base64ToArrayBuffer_of_atob _ _ Aa),
    (base64ToArrayBuffer_of_atob _ _ Ab).
Qed.

Lemma base64ToFile_content_inj_witness :
  base64ToArrayBuffer "/w==" = base64ToArrayBuffer " /w".
Proof.
  apply (base64ToFile_content_inj "/w==" " /w" "a.bin" "b.bin"
           {| name := "a.bin"; bytes := [xc3; xbf]; type := "" |}
           {| name := "b.bin"; bytes := [xc3; xbf]; type := "" |});
    reflexivity.
Defined.

(** ** Which payloads are accepted *)

Lemma sextets_some_iff (s : string) :
  (exists vs, Base64.sextets s = Some vs)
  <-> forall c, In c (list_ascii_of_string s) -> Base64.sextet c <> None.
Proof.
  induction s as [|c s IH]; cbn [Base64.sextets list_ascii_of_string].
  - split; [intros _ c [] | now exists []].
  - split.
    + intros (vs & H) x [<-|Hx].
      * now destruct (Base64.sextet c).
      * apply IH; [|exact Hx].
        destruct (Base64.sextet c); [|discriminate].
        destruct (Base64.sextets s) as [ws|]; [now exists ws | discriminate].
    + intros H.
      destruct (Base64.sextet c) as [v|] eqn:E;
        [|now exfalso; apply (H c); [left|]].
      destruct (proj2 IH) as (ws & ->); [|now exists (v :: ws)].
      intros x Hx. apply H. now right.
Qed.

(** X16. [base64ToArrayBuffer] returns a buffer exactly when, whitespace
    and final padding apart, the payload holds characters of the base64
    alphabet only and their number is not one more than a multiple of
    four; otherwise it throws. *)
Theorem base64ToArrayBuffer_accepts (base64 : string) :
  (exists buffer, base64ToArrayBuffer base64 = Ok buffer)
  <-> (JS.length (payload base64) mod 4 <> 1
       /\ forall c, In c (list_ascii_of_string (payload base64)) ->
                    Base64.sextet c <> None).
Proof.
  rewrite <- sextets_some_iff.
  unfold base64ToArrayBuffer, Base64.atob.
  rewrite forgiving_decode_payload.
  destruct (Z.eqb_spec (JS.length (payload base64) mod 4) 1) as [E|N].
  - cbn [bind]. split; [intros (buffer & H); discriminate H | intros [H _]; contradiction].
  - destruct (Base64.sextets (payload base64)) as [vs|]; cbn [option_map bind].
    + split; [intros _; split; [exact N | now exists vs] | intros _; now eexists].
    + split; [intros (buffer & H); discriminate H | intros [_ (vs & H)]; discriminate H].
Qed.

(** * The QR code page *)

Module QRCodePageFacts.

Import QRCodePage.

Section Page.

Context {Course QRCodeScanResult : Type}.
Variable id : Course -> Z.
Variables url display_name : QRCodeScanResult -> string.

Lemma find_id (courses : list Course) (courseId : Z) :
  (exists course, List.find (fun course => id course =? courseId) courses = Some course)
  <-> exists course, In course courses /\ id course = courseId.
Proof.
  split.
  - intros (c & H). apply find_some in H. exists c.
    now rewrite Z.eqb_eq in H.
  - intros (c & Hin & Hid).
    destruct (List.find (fun course => id course =? courseId) courses) as [c'|] eqn:F;
      [now exists c'|].
    apply (find_none _ _ F) in Hin. rewrite Z.eqb_neq in Hin. contradiction.
Qed.

Lemma handleCourseSelect_invokes (courses : list Course)
    (r : outcome (list QRCodeScanResult)) (courseId k : Z) :
  In (invoke_filter_course_qrcode_images k)
     (handleCourseSelect id courses r courseId)
  <-> k = courseId /\ exists course, In course courses /\ id course = courseId.
Proof.
  unfold handleCourseSelect.
  destruct (List.find (fun course => id course =? courseId) courses) as [c|] eqn:F.
  - assert (E : exists course, In course courses /\ id course = courseId)
      by (apply find_id; now exists c).
    unfold handleGetQRCode. split.
    + intros [H|[H|H]]; try discriminate H.
      * injection H as <-. now split.
      * destruct r; cbn in H; destruct H as [H|[H|[]]]; discriminate H.
    + intros [-> _]. right. now left.
  - split; [intros []|].
    intros [_ E]. apply find_id in E. destruct E as (c & E). congruence.
Qed.

Lemma handleCourseSelect_unknown (courses : list Course)
    (r : outcome (list QRCodeScanResult)) (courseId : Z) :
  handleCourseSelect id courses r courseId = []
  <-> forall course, In course courses -> id course <> courseId.
Proof.
  unfold handleCourseSelect.
  destruct (List.find (fun course => id course =? courseId) courses) as [c|] eqn:F.
  - split; [discriminate|].
    intros N. apply find_some in F. destruct F as [Hin Hid].
    apply Z.eqb_eq in Hid. now apply N in Hin.
  - split; [|reflexivity].
    intros _ course Hin. apply (find_none _ _ F) in Hin.
    now apply Z.eqb_neq in Hin.
Qed.

(** X17. Selecting a course asks the backend for its QR code images
    exactly when the selected id is the id of one of the known courses, and
    then for that id; when it is the id of none, the handler makes no call
    at all, and only then. *)
Theorem handleCourseSelect_guard (courses : list Course)
    (r : outcome (list QRCodeScanResult)) (courseId : Z) :
  (forall k, In (invoke_filter_course_qrcode_images k)
                (handleCourseSelect id courses r courseId)
             <-> k = courseId
                 /\ exists course, In course courses /\ id course = courseId)
  /\ (handleCourseSelect id courses r courseId = []
      <-> forall course, In course courses -> id course <> courseId).
Proof.
  split.
  - intros k. apply handleCourseSelect_invokes.
  - apply handleCourseSelect_unknown.
Qed.

(** X18. However the backend call ends, a run of [handleGetQRCode] leaves
    [operating] false and the courses as they were; the scan results are
    the ones the backend returned, or the former ones when it failed, in
    which case the one message is the read error with the thrown value. *)
Theorem handleGetQRCode_run (st : state Course QRCodeScanResult)
    (r : outcome (list QRCodeScanResult)) (courseId : Z) :
  let actions : list (action Course QRCodeScanResult) :=
    handleGetQRCode r courseId in
  let st' := run st actions in
  operating st' = false
  /\ courses st' = courses st
  /\ match r with
     | Resolved rs =>
         scanResults st' = rs
         /\ forall c, ~ In (message_error c) actions
     | Rejected e =>
         scanResults st' = scanResults st
         /\ forall c, In (message_error c) actions <-> c = ReadError e
     end.
Proof.
  destruct r as [rs|e]; cbn; repeat split; try reflexivity.
  - intros c [H|[H|[H|[H|[]]]]]; discriminate H.
  - intros [H|[H|[H|[H|[]]]]]; try discriminate H. now injection H.
  - intros ->. right. right. now left.
Qed.

(** X19. The backend is asked for QR code images only for ids of the
    courses that [list_courses] returned when the page was set up: after a
    successful [initCourses] every id of a returned course is served and no
    other id is; after a failed one no selection makes any call. *)
Theorem initCourses_then_select (r0 : outcome (list Course))
    (r : outcome (list QRCodeScanResult)) (courseId : Z) :
  let st : state Course QRCodeScanResult := run initial (initCourses r0) in
  match r0 with
  | Resolved cs =>
      In (invoke_filter_course_qrcode_images courseId)
         (handleCourseSelect id (courses st) r courseId)
      <-> exists course, In course cs /\ id course = courseId
  | Rejected _ => handleCourseSelect id (courses st) r courseId = []
  end.
Proof.
  destruct r0 as [cs|e]; cbn -[handleCourseSelect]; [|reflexivity].
  rewrite handleCourseSelect_invokes.
  split; [now intros [_ H] | now split].
Qed.

(** X20. The page shows the course select, disabled exactly while
    [operating], and after it exactly one of the two: the empty placeholder
    when there is no scan result, else the grid with one card for each
    result, in order, with its URL and its display name. *)
Theorem render_cases (st : state Course QRCodeScanResult) :
  render url display_name st =
    [ CourseSelect (operating st) (courses st);
      match scanResults st with
      | [] => Empty
      | _ :: _ =>
          CardList (map (fun scanResult => (url scanResult, display_name scanResult))
                          (scanResults st))
      end ].
Proof.
  unfold render. destruct (scanResults st) as [|x l]; [reflexivity|].
  cbn [List.length].
  destruct (Z.ltb_spec 0 (Z.of_nat (S (List.length l)))); [|lia].
  destruct (Z.eqb_spec (Z.of_nat (S (List.length l))) 0); [lia|].
  reflexivity.
Qed.

End Page.

End QRCodePageFacts.
